(** * pac-annotations-mapper: the message handler of [service/messageHandler.go]

    A shallow embedding of [AnnotationMapperService.HandleMessage],
    [buildAnnotation] and [buildConceptAnnotationsHeader], followed by the
    properties of the handler that the specification states. *)

From Stdlib Require Import ZArith Ascii String List Lia.
From stdpp Require Import base option list gmap strings fin_maps.

Local Open Scope string_scope.
Local Open Scope list_scope.
Local Open Scope stdpp_scope.

(** ** Go values *)

(** A Go string is a sequence of bytes, as is a Rocq [string].  Literals of
    this file are written with an apostrophe wherever the Go text has a double
    quote; [dq] puts the double quotes back. *)
Definition quote : ascii := ascii_of_nat 34.

Fixpoint dq (s : string) : string :=
  match s with
  | EmptyString => EmptyString
  | String c rest =>
      String (if Ascii.eqb c (ascii_of_nat 39) then quote else c) (dq rest)
  end.

(** A Go slice is either [nil] ([None]) or holds a run of elements.  The
    handler only ranges over slices and appends to them. *)
Definition slice (A : Type) : Type := option (list A).

Definition elems {A} (s : slice A) : list A := default [] s.

(** [append(s, x)]: appending to a nil slice allocates. *)
Definition append {A} (s : slice A) (x : A) : slice A := Some (elems s ++ [x]).

(** Go's [error] interface, observed through its [Error()] text; [nil] is
    [None] of [option error]. *)
Definition error : Type := string.

(** ** Data model *)

(** Modelled from the spec: the five struct types of the package, which are
    declared outside the handler's file.  The fields are those the handler
    reads and writes, with the types of the data model of the specification
    (strings, and ordered sequences for the annotations). *)
Module Event.
Record PacMetadataAnnotation := { ConceptId : string; Predicate : string }.
Record PacMetadataPublishEvent := {
  UUID : string;
  Annotations : slice PacMetadataAnnotation
}.
End Event.

Module Concept.
Record thing := { ID : string; Predicate : string }.
Record annotation := { Thing : thing }.
Record ConceptAnnotations := {
  UUID : string;
  Annotations : slice annotation
}.
End Concept.

Abbreviation PacMetadataAnnotation := Event.PacMetadataAnnotation.
Abbreviation PacMetadataPublishEvent := Event.PacMetadataPublishEvent.
Abbreviation thing := Concept.thing.
Abbreviation annotation := Concept.annotation.
Abbreviation ConceptAnnotations := Concept.ConceptAnnotations.

#[global] Instance PacMetadataAnnotation_eq_dec : EqDecision PacMetadataAnnotation.
Proof. solve_decision. Defined.
#[global] Instance thing_eq_dec : EqDecision thing.
Proof. solve_decision. Defined.
#[global] Instance annotation_eq_dec : EqDecision annotation.
Proof. solve_decision. Defined.

(** ** The predicate table *)

Definition predicates : gmap string string :=
  list_to_map [
    ("http://www.ft.com/ontology/classification/isClassifiedBy", "isClassifiedBy");
    ("http://www.ft.com/ontology/annotation/hasAuthor", "hasAuthor");
    ("http://www.ft.com/ontology/annotation/hasContributor", "hasContributor");
    ("http://www.ft.com/ontology/annotation/about", "about");
    ("http://www.ft.com/ontology/annotation/hasDisplayTag", "hasDisplayTag");
    ("http://www.ft.com/ontology/annotation/mentions", "mentions")
  ].

(** ** The world around the handler *)

(** [kafka.FTMessage]: headers and a body.  [Headers] is a Go map, that is a
    reference to a map object ([None] is the nil map). *)
Record FTMessage := { Headers : option nat; Body : string }.

(** What logrus receives: a level, the fields of the entry and the text. *)
Inductive Level := InfoLevel | WarnLevel | ErrorLevel.

Inductive Field :=
  | StringField (s : string)
  | MetadataField (metadata : PacMetadataAnnotation).

Record LogLine := {
  level : Level;
  fields : list (string * Field);
  message : string
}.

(** The state one call can touch: the map objects allocated so far, how many
    UUIDs were drawn and how often the clock was read, the messages handed to
    the producer (oldest first) and the log. *)
Record World := {
  heap : gmap nat (gmap string string);
  uuids : nat;
  clock : nat;
  sent : list FTMessage;
  log : list LogLine
}.

Definition M (A : Type) : Type := World -> A * World.

#[global] Instance M_ret : MRet M := λ A a w, (a, w).
#[global] Instance M_bind : MBind M :=
  λ A B f m w, let '(a, w') := m w in f a w'.

(** [v, ok := m[k]] on a Go map; a nil map has no keys. *)
Definition mapLookup (w : World) (m : option nat) (k : string) : option string :=
  l ← m; content ← heap w !! l; content !! k.

(** [m[k]]: the zero value when the key is absent. *)
Definition mapIndex (w : World) (m : option nat) (k : string) : string :=
  default "" (mapLookup w m k).

Definition index (m : option nat) (k : string) : M string :=
  λ w, (mapIndex w m k, w).

(** A map literal allocates a map object at an address not in use. *)
Definition makeMap (content : gmap string string) : M (option nat) :=
  λ w, let l := fresh (dom (heap w)) in
       (Some l,
        {| heap := <[l := content]> (heap w); uuids := uuids w; clock := clock w;
           sent := sent w; log := log w |}).

Definition addLog (lines : list LogLine) (w : World) : World :=
  {| heap := heap w; uuids := uuids w; clock := clock w; sent := sent w;
     log := log w ++ lines |}.

Definition logLine (lvl : Level) (entry : list (string * Field)) (text : string)
  : M unit :=
  λ w, (tt, addLog [{| level := lvl; fields := entry; message := text |}] w).

Definition WithField (entry : list (string * Field)) (key : string) (value : Field)
  : list (string * Field) := entry ++ [(key, value)].

(** ** Time.Format *)

(** A reading of the wall clock, broken down as [time.Now()] presents it. *)
Record Time := {
  year : Z; month : Z; day : Z;
  hour : Z; minute : Z; second : Z;
  nanosecond : Z
}.

Definition digit (d : Z) : ascii := ascii_of_nat (48 + Z.to_nat d).

Fixpoint utoa (fuel : nat) (x : Z) (acc : string) : string :=
  let acc' := String (digit (x mod 10)) acc in
  match fuel with
  | O => acc'
  | S fuel' => if (x / 10 =? 0)%Z then acc' else utoa fuel' (x / 10) acc'
  end.

Fixpoint zeroPad (n : nat) (s : string) : string :=
  match n with
  | O => s
  | S n' => String "0" (zeroPad n' s)
  end.

(** [appendInt]: the decimal form of [x], padded with zeros to at least
    [width] characters. *)
Definition appendInt (x : Z) (width : nat) : string :=
  let u := utoa (Z.to_nat (Z.log2 (Z.abs x))) (Z.abs x) "" in
  let padded := zeroPad (width - String.length u) u in
  if (x <? 0)%Z then String "-" padded else padded.

(** The elements of a layout that [messageTimestampDateFormat] uses. *)
Inductive std :=
  | stdLongYear          (* 2006 *)
  | stdZeroMonth         (* 01 *)
  | stdZeroDay           (* 02 *)
  | stdHour              (* 15 *)
  | stdZeroMinute        (* 04 *)
  | stdZeroSecond        (* 05 *)
  | stdFracSecond0 (digits : nat)   (* .000 *)
  | stdLiteral (c : ascii).

Definition isDigit (s : string) : bool :=
  match s with
  | String c _ => (48 <=? nat_of_ascii c)%nat && (nat_of_ascii c <=? 57)%nat
  | EmptyString => false
  end.

(** The run of zeros at the head of [s] and what follows it. *)
Fixpoint zeros (s : string) : nat * string :=
  match s with
  | String "0" rest => let '(n, after) := zeros rest in (S n, after)
  | _ => (O, s)
  end.

(** [nextStdChunk], repeated over the layout.  Elements of Go's layout
    language other than the seven above (month and day names, the 12-hour
    clock, zone names and offsets, ...) are not modelled: they do not occur in
    the layout of this package, and text that is none of the seven is copied. *)
Fixpoint chunks (fuel : nat) (layout : string) : list std :=
  match fuel with
  | O => []
  | S fuel' =>
      match layout with
      | EmptyString => []
      | String "2" (String "0" (String "0" (String "6" rest))) =>
          stdLongYear :: chunks fuel' rest
      | String "0" (String "1" rest) => stdZeroMonth :: chunks fuel' rest
      | String "0" (String "2" rest) => stdZeroDay :: chunks fuel' rest
      | String "1" (String "5" rest) => stdHour :: chunks fuel' rest
      | String "0" (String "4" rest) => stdZeroMinute :: chunks fuel' rest
      | String "0" (String "5" rest) => stdZeroSecond :: chunks fuel' rest
      | String "." (String "0" rest as frac) =>
          let '(n, after) := zeros frac in
          if isDigit after then stdLiteral "." :: chunks fuel' frac
          else stdFracSecond0 n :: chunks fuel' after
      | String c rest => stdLiteral c :: chunks fuel' rest
      end
  end.

Definition formatChunk (t : Time) (c : std) : string :=
  match c with
  | stdLongYear => appendInt (year t) 4
  | stdZeroMonth => appendInt (month t) 2
  | stdZeroDay => appendInt (day t) 2
  | stdHour => appendInt (hour t) 2
  | stdZeroMinute => appendInt (minute t) 2
  | stdZeroSecond => appendInt (second t) 2
  | stdFracSecond0 n =>
      String "." (appendInt (nanosecond t / 10 ^ (9 - Z.of_nat n)) n)
  | stdLiteral c => String c EmptyString
  end.

Definition Format (t : Time) (layout : string) : string :=
  String.concat "" (map (formatChunk t) (chunks (String.length layout) layout)).

Definition messageTimestampDateFormat : string := "2006-01-02T15:04:05.000Z".

(** ** The collaborators *)

(** The UUID generator and the wall clock: [NewV4 n] is the text of the UUID
    that the [n]-th call of [uuid.NewV4().String()] gives, [Now n] what the
    [n]-th reading of [time.Now()] gives. *)
Record Env := {
  NewV4 : nat -> string;
  Now : nat -> Time
}.

(** [encoding/json] at the two struct types of the handler. *)
Record JSON := {
  Unmarshal : string -> error + PacMetadataPublishEvent;
  Marshal : ConceptAnnotations -> error + string
}.

(** The service: the whitelist, through [MatchString] of the compiled
    pattern, and the producer, through the answer of [SendMessage] (which may
    depend on everything that happened before). *)
Record AnnotationMapperService := {
  whitelist : string -> bool;
  messageProducer : World -> FTMessage -> option error
}.

Definition NewAnnotationMapperService (whitelist : string -> bool)
    (messageProducer : World -> FTMessage -> option error)
  : AnnotationMapperService :=
  {| whitelist := whitelist; messageProducer := messageProducer |}.

Definition SendMessage (mapper : AnnotationMapperService) (message : FTMessage)
  : M (option error) :=
  λ w, (messageProducer mapper w message,
        {| heap := heap w; uuids := uuids w; clock := clock w;
           sent := sent w ++ [message]; log := log w |}).

(** ** buildAnnotation *)

(** The returned [*annotation] is [nil] ([None]) unless the predicate is a key
    of the table. *)
Definition buildAnnotation (mapper : AnnotationMapperService)
    (metadata : PacMetadataAnnotation) : option annotation :=
  match predicates !! Event.Predicate metadata with
  | Some predicate =>
      let thing :=
        {| Concept.ID := Event.ConceptId metadata; Concept.Predicate := predicate |} in
      Some {| Concept.Thing := thing |}
  | None => None
  end.

Section Handler.
Context (env : Env) (json : JSON).

Definition newV4String : M string :=
  λ w, (NewV4 env (uuids w),
        {| heap := heap w; uuids := S (uuids w); clock := clock w;
           sent := sent w; log := log w |}).

Definition timeNow : M Time :=
  λ w, (Now env (clock w),
        {| heap := heap w; uuids := uuids w; clock := S (clock w);
           sent := sent w; log := log w |}).

(** *** buildConceptAnnotationsHeader *)
Definition buildConceptAnnotationsHeader (publishEventHeaders : option nat)
  : M (option nat) :=
  messageId ← newV4String;
  contentType ← index publishEventHeaders "Content-Type";
  requestId ← index publishEventHeaders "X-Request-Id";
  originSystemId ← index publishEventHeaders "Origin-System-Id";
  now ← timeNow;
  makeMap (list_to_map [
    ("Message-Id", messageId);
    ("Message-Type", "concept-annotation");
    ("Content-Type", contentType);
    ("X-Request-Id", requestId);
    ("Origin-System-Id", originSystemId);
    ("Message-Timestamp", Format now messageTimestampDateFormat)
  ]).

(** *** The loop of HandleMessage over the annotations of the event *)
Fixpoint rangeAnnotations (mapper : AnnotationMapperService)
    (requestLog : list (string * Field))
    (values : list PacMetadataAnnotation) (annotations : slice annotation)
  : M (slice annotation) :=
  match values with
  | [] => mret annotations
  | value :: rest =>
      match buildAnnotation mapper value with
      | Some ann =>
          rangeAnnotations mapper requestLog rest (append annotations ann)
      | None =>
          logLine WarnLevel
            (WithField requestLog "metadata" (MetadataField value))
            "metadata for an unsupported predicate was not mapped";;
          rangeAnnotations mapper requestLog rest annotations
      end
  end.

(** *** HandleMessage *)
Definition HandleMessage (mapper : AnnotationMapperService) (msg : FTMessage)
  : M (option error) :=
  tid ← index (Headers msg) "X-Request-Id";
  let requestLog := WithField [] "transaction_id" (StringField tid) in
  systemCode ← index (Headers msg) "Origin-System-Id";
  if negb (whitelist mapper systemCode) then
    logLine InfoLevel requestLog
      (dq "Skipping annotations published with Origin-System-Id '" +:+ systemCode
       +:+ dq "'. It does not match the configured whitelist.");;
    mret None
  else
    match Unmarshal json (Body msg) with
    | inl err =>
        logLine ErrorLevel requestLog ("Cannot unmarshal message body" +:+ err);;
        mret (Some err)
    | inr metadataPublishEvent =>
        let requestLog :=
          WithField requestLog "uuid"
            (StringField (Event.UUID metadataPublishEvent)) in
        logLine InfoLevel requestLog "Processing metadata publish event";;
        annotations ← rangeAnnotations mapper requestLog
                        (elems (Event.Annotations metadataPublishEvent)) (Some []);
        let conceptAnnotations :=
          {| Concept.UUID := Event.UUID metadataPublishEvent;
             Concept.Annotations := annotations |} in
        match Marshal json conceptAnnotations with
        | inl err =>
            logLine ErrorLevel requestLog
              ("Error marshalling the concept annotations" +:+ err);;
            mret (Some err)
        | inr marshalledAnnotations =>
            headers ← buildConceptAnnotationsHeader (Headers msg);
            let message := {| Headers := headers; Body := marshalledAnnotations |} in
            err ← SendMessage mapper message;
            match err with
            | Some e =>
                logLine ErrorLevel requestLog
                  ("Error sending concept annotation to queue" +:+ e);;
                mret (Some e)
            | None =>
                logLine InfoLevel requestLog "Sent annotation message to queue";;
                mret None
            end
        end
    end.
End Handler.

(** ** encoding/json at the types of the handler *)

Module encoding_json.

#[local] Set Warnings "-register-all".
Inductive value :=
  | JNull
  | JBool (b : bool)
  | JNumber (literal : string)
  | JString (s : string)
  | JArray (elements : list value)
  | JObject (members : list (string * value)).

Definition isByte (c : ascii) (code : nat) : bool := (nat_of_ascii c =? code)%nat.

Definition isSpace (c : ascii) : bool :=
  isByte c 32 || isByte c 9 || isByte c 10 || isByte c 13.

Fixpoint skipSpace (s : string) : string :=
  match s with
  | String c rest => if isSpace c then skipSpace rest else s
  | EmptyString => s
  end.

Definition hexValue (c : ascii) : option Z :=
  let n := nat_of_ascii c in
  if (48 <=? n)%nat && (n <=? 57)%nat then Some (Z.of_nat (n - 48))
  else if (97 <=? n)%nat && (n <=? 102)%nat then Some (Z.of_nat (n - 87))
  else if (65 <=? n)%nat && (n <=? 70)%nat then Some (Z.of_nat (n - 55))
  else None.

(** Four hexadecimal digits, as after a [\u]. *)
Definition getu4 (s : string) : option (Z * string) :=
  match s with
  | String a (String b (String c (String d rest))) =>
      x3 ← hexValue a; x2 ← hexValue b; x1 ← hexValue c; x0 ← hexValue d;
      Some (x3 * 4096 + x2 * 256 + x1 * 16 + x0, rest)%Z
  | _ => None
  end.

Definition byte (z : Z) : ascii := ascii_of_nat (Z.to_nat z).

(** The UTF-8 encoding of a code point. *)
Definition encodeRune (r : Z) : string :=
  if (r <? 128)%Z then String (byte r) EmptyString
  else if (r <? 2048)%Z then
    String (byte (Z.lor 192 (Z.shiftr r 6)))
      (String (byte (Z.lor 128 (Z.land r 63))) EmptyString)
  else if (r <? 65536)%Z then
    String (byte (Z.lor 224 (Z.shiftr r 12)))
      (String (byte (Z.lor 128 (Z.land (Z.shiftr r 6) 63)))
         (String (byte (Z.lor 128 (Z.land r 63))) EmptyString))
  else
    String (byte (Z.lor 240 (Z.shiftr r 18)))
      (String (byte (Z.lor 128 (Z.land (Z.shiftr r 12) 63)))
         (String (byte (Z.lor 128 (Z.land (Z.shiftr r 6) 63)))
            (String (byte (Z.lor 128 (Z.land r 63))) EmptyString))).

Definition isSurrogate (r : Z) : bool := (55296 <=? r)%Z && (r <? 57344)%Z.

Definition inRange (lo hi : nat) (c : ascii) : bool :=
  (lo <=? nat_of_ascii c)%nat && (nat_of_ascii c <=? hi)%nat.

(** [utf8.DecodeRuneInString] at a byte from 128 on: the length of the
    well-formed sequence that [s] starts with, if it starts with one (the
    second byte of a sequence is bounded by its first one, which excludes
    overlong forms, surrogates and code points beyond U+10FFFF). *)
Definition runeSize (s : string) : option nat :=
  match s with
  | EmptyString => None
  | String b0 rest =>
      if inRange 194 223 b0 then
        match rest with
        | String b1 _ => if inRange 128 191 b1 then Some 2%nat else None
        | _ => None
        end
      else if inRange 224 239 b0 then
        let lo := if isByte b0 224 then 160%nat else 128%nat in
        let hi := if isByte b0 237 then 159%nat else 191%nat in
        match rest with
        | String b1 (String b2 _) =>
            if inRange lo hi b1 && inRange 128 191 b2 then Some 3%nat else None
        | _ => None
        end
      else if inRange 240 244 b0 then
        let lo := if isByte b0 240 then 144%nat else 128%nat in
        let hi := if isByte b0 244 then 143%nat else 191%nat in
        match rest with
        | String b1 (String b2 (String b3 _)) =>
            if inRange lo hi b1 && inRange 128 191 b2 && inRange 128 191 b3
            then Some 4%nat else None
        | _ => None
        end
      else None
  end.

Fixpoint takeBytes (n : nat) (s : string) : string :=
  match n, s with
  | S n', String c rest => String c (takeBytes n' rest)
  | _, _ => EmptyString
  end.

Fixpoint dropBytes (n : nat) (s : string) : string :=
  match n, s with
  | S n', String _ rest => dropBytes n' rest
  | _, _ => s
  end.

(** The text of a string literal, from after its opening quote: the
    decoded bytes and what follows the closing quote.  A byte that is not
    part of well-formed UTF-8 is replaced by U+FFFD. *)
Fixpoint unquote (fuel : nat) (s : string) (acc : string)
  : option (string * string) :=
  match fuel with
  | O => None
  | S fuel' =>
      match s with
      | EmptyString => None
      | String c rest =>
          if isByte c 34 then Some (acc, rest)
          else if isByte c 92 then
            match rest with
            | EmptyString => None
            | String e rest' =>
                let short (b : nat) :=
                  unquote fuel' rest' (acc +:+ String (ascii_of_nat b) EmptyString) in
                if isByte e 34 then short 34%nat
                else if isByte e 92 then short 92%nat
                else if isByte e 47 then short 47%nat
                else if isByte e 98 then short 8%nat
                else if isByte e 102 then short 12%nat
                else if isByte e 110 then short 10%nat
                else if isByte e 114 then short 13%nat
                else if isByte e 116 then short 9%nat
                else if isByte e 117 then
                  match getu4 rest' with
                  | None => None
                  | Some (r, after) =>
                      if isSurrogate r then
                        match after with
                        | String b1 (String b2 low) =>
                            match (if isByte b1 92 && isByte b2 117 then getu4 low else None) with
                            | Some (r2, after2) =>
                                if (r <? 56320)%Z && (56320 <=? r2)%Z && (r2 <? 57344)%Z
                                then
                                  unquote fuel' after2
                                    (acc +:+ encodeRune
                                       ((r - 55296) * 1024 + (r2 - 56320) + 65536)%Z)
                                else unquote fuel' after (acc +:+ encodeRune 65533)
                            | None => unquote fuel' after (acc +:+ encodeRune 65533)
                            end
                        | _ => unquote fuel' after (acc +:+ encodeRune 65533)
                        end
                      else unquote fuel' after (acc +:+ encodeRune r)
                  end
                else None
            end
          else if (nat_of_ascii c <? 32)%nat then None
          else if (nat_of_ascii c <? 128)%nat then
            unquote fuel' rest (acc +:+ String c EmptyString)
          else
            match runeSize s with
            | Some size =>
                unquote fuel' (dropBytes size s) (acc +:+ takeBytes size s)
            | None => unquote fuel' rest (acc +:+ encodeRune 65533)
            end
      end
  end.

Definition isDigitChar (c : ascii) : bool :=
  (48 <=? nat_of_ascii c)%nat && (nat_of_ascii c <=? 57)%nat.

Fixpoint spanDigits (s : string) : string * string :=
  match s with
  | String c rest =>
      if isDigitChar c then
        let '(ds, after) := spanDigits rest in (String c ds, after)
      else (EmptyString, s)
  | EmptyString => (EmptyString, s)
  end.

(** A number literal: an optional minus, an integer part without a leading
    zero (unless it is 0 alone), an optional fraction, an optional exponent. *)
Definition scanNumber (s : string) : option (string * string) :=
  let '(sign, s1) :=
    match s with
    | String c rest => if isByte c 45 then ("-", rest) else ("", s)
    | EmptyString => ("", s)
    end in
  let '(int, s2) := spanDigits s1 in
  match int with
  | EmptyString => None
  | String d more =>
      if isByte d 48 && negb (String.eqb more "") then None
      else
        let fraction :=
          match s2 with
          | String c rest =>
              if isByte c 46 then
                let '(ds, after) := spanDigits rest in
                if String.eqb ds "" then None else Some ("." +:+ ds, after)
              else Some ("", s2)
          | EmptyString => Some ("", s2)
          end in
        '(frac, s3) ← fraction;
        let exponent :=
          match s3 with
          | String c rest =>
              if isByte c 101 || isByte c 69 then
                let '(esign, rest') :=
                  match rest with
                  | String g rest'' =>
                      if isByte g 43 || isByte g 45 then (String g EmptyString, rest'')
                      else ("", rest)
                  | EmptyString => ("", rest)
                  end in
                let '(ds, after) := spanDigits rest' in
                if String.eqb ds "" then None
                else Some (String c esign +:+ ds, after)
              else Some ("", s3)
          | EmptyString => Some ("", s3)
          end in
        '(exp, s4) ← exponent;
        Some (sign +:+ int +:+ frac +:+ exp, s4)
  end.

Fixpoint dropPrefix (word s : string) : option string :=
  match word, s with
  | EmptyString, _ => Some s
  | String c word', String d s' => if Ascii.eqb c d then dropPrefix word' s' else None
  | String _ _, EmptyString => None
  end.

Definition literal (word : string) (v : value) (s : string)
  : option (value * string) :=
  after ← dropPrefix word s; Some (v, after).

Fixpoint parseValue (fuel : nat) (s : string) : option (value * string) :=
  match fuel with
  | O => None
  | S fuel' =>
      match skipSpace s with
      | EmptyString => None
      | String c rest as s' =>
          if isByte c 123 then
            match skipSpace rest with
            | String d rest' =>
                if isByte d 125 then Some (JObject [], rest')
                else parseMembers fuel' rest []
            | EmptyString => None
            end
          else if isByte c 91 then
            match skipSpace rest with
            | String d rest' =>
                if isByte d 93 then Some (JArray [], rest')
                else parseElements fuel' rest []
            | EmptyString => None
            end
          else if isByte c 34 then
            '(text, after) ← unquote (S (String.length rest)) rest "";
            Some (JString text, after)
          else if isByte c 116 then literal "true" (JBool true) s'
          else if isByte c 102 then literal "false" (JBool false) s'
          else if isByte c 110 then literal "null" JNull s'
          else
            '(number, after) ← scanNumber s';
            Some (JNumber number, after)
      end
  end
with parseElements (fuel : nat) (s : string) (acc : list value)
  : option (value * string) :=
  match fuel with
  | O => None
  | S fuel' =>
      '(v, after) ← parseValue fuel' s;
      match skipSpace after with
      | String c rest =>
          if isByte c 44 then parseElements fuel' rest (acc ++ [v])
          else if isByte c 93 then Some (JArray (acc ++ [v]), rest)
          else None
      | EmptyString => None
      end
  end
with parseMembers (fuel : nat) (s : string) (acc : list (string * value))
  : option (value * string) :=
  match fuel with
  | O => None
  | S fuel' =>
      match skipSpace s with
      | String q rest =>
          if isByte q 34 then
            '(key, after) ← unquote (S (String.length rest)) rest "";
            match skipSpace after with
            | String c rest2 =>
                if isByte c 58 then
                  '(v, after2) ← parseValue fuel' rest2;
                  match skipSpace after2 with
                  | String d rest3 =>
                      if isByte d 44 then parseMembers fuel' rest3 (acc ++ [(key, v)])
                      else if isByte d 125 then Some (JObject (acc ++ [(key, v)]), rest3)
                      else None
                  | EmptyString => None
                  end
                else None
            | EmptyString => None
            end
          else None
      | EmptyString => None
      end
  end.

(** One JSON text and nothing but white space after it. *)
Definition parse (data : string) : option value :=
  '(v, after) ← parseValue (2 * String.length data + 2) data;
  if String.eqb (skipSpace after) "" then Some v else None.

Definition lower (c : ascii) : ascii :=
  let n := nat_of_ascii c in
  if (65 <=? n)%nat && (n <=? 90)%nat then ascii_of_nat (n + 32) else c.

(** Letters are folded to lower case; the two characters outside ASCII that
    fold to an ASCII letter are U+017F (to s) and U+212A (to k). *)
Fixpoint foldName (s : string) : string :=
  match s with
  | EmptyString => EmptyString
  | String c rest =>
      match rest with
      | String c1 rest1 =>
          if isByte c 197 && isByte c1 191 then String "s" (foldName rest1)
          else
            match rest1 with
            | String c2 rest2 =>
                if isByte c 226 && isByte c1 132 && isByte c2 170
                then String "k" (foldName rest2)
                else String (lower c) (foldName rest)
            | EmptyString => String (lower c) (foldName rest)
            end
      | EmptyString => String (lower c) (foldName rest)
      end
  end.

(** A key of the input selects the field whose name it equals, letter case
    apart. *)
Definition equalFold (key name : string) : bool :=
  String.eqb (foldName key) (foldName name).

Definition syntaxError : error := "json: syntax error".
Definition unmarshalTypeError : error := "json: cannot unmarshal value into Go value".

Definition decodeString (v : value) (old : string) : error + string :=
  match v with
  | JString s => inr s
  | JNull => inr old
  | _ => inl unmarshalTypeError
  end.

(** Modelled from the spec: the names under which the fields of the two
    inbound structs are read ([uuid], [annotations], [conceptId],
    [predicate]); the struct declarations are not part of the handler's
    file. *)
Fixpoint decodeAnnotationMembers (members : list (string * value))
    (into : PacMetadataAnnotation) : error + PacMetadataAnnotation :=
  match members with
  | [] => inr into
  | (key, v) :: rest =>
      if equalFold key "conceptId" then
        match decodeString v (Event.ConceptId into) with
        | inl err => inl err
        | inr s =>
            decodeAnnotationMembers rest
              {| Event.ConceptId := s; Event.Predicate := Event.Predicate into |}
        end
      else if equalFold key "predicate" then
        match decodeString v (Event.Predicate into) with
        | inl err => inl err
        | inr s =>
            decodeAnnotationMembers rest
              {| Event.ConceptId := Event.ConceptId into; Event.Predicate := s |}
        end
      else decodeAnnotationMembers rest into
  end.

(** An element is decoded into the struct that is already at its place: a
    member sets its field, [null] leaves the struct as it is. *)
Definition decodeAnnotation (v : value) (into : PacMetadataAnnotation)
  : error + PacMetadataAnnotation :=
  match v with
  | JObject members => decodeAnnotationMembers members into
  | JNull => inr into
  | _ => inl unmarshalTypeError
  end.

(** An array is decoded element by element into the elements that the slice
    holds already ([old]), and into zero structs beyond them; the slice ends
    up as long as the array. *)
Fixpoint decodeAnnotations (elements : list value) (old : list PacMetadataAnnotation)
  : error + list PacMetadataAnnotation :=
  match elements with
  | [] => inr []
  | v :: rest =>
      let into :=
        match old with
        | a :: _ => a
        | [] => {| Event.ConceptId := ""; Event.Predicate := "" |}
        end in
      match decodeAnnotation v into with
      | inl err => inl err
      | inr a =>
          match decodeAnnotations rest (tail old) with
          | inl err => inl err
          | inr l => inr (a :: l)
          end
      end
  end.

Fixpoint decodeEventMembers (members : list (string * value))
    (into : PacMetadataPublishEvent) : error + PacMetadataPublishEvent :=
  match members with
  | [] => inr into
  | (key, v) :: rest =>
      if equalFold key "uuid" then
        match decodeString v (Event.UUID into) with
        | inl err => inl err
        | inr s =>
            decodeEventMembers rest
              {| Event.UUID := s; Event.Annotations := Event.Annotations into |}
        end
      else if equalFold key "annotations" then
        match v with
        | JArray elements =>
            match decodeAnnotations elements (elems (Event.Annotations into)) with
            | inl err => inl err
            | inr l =>
                decodeEventMembers rest
                  {| Event.UUID := Event.UUID into; Event.Annotations := Some l |}
            end
        | JNull =>
            decodeEventMembers rest
              {| Event.UUID := Event.UUID into; Event.Annotations := None |}
        | _ => inl unmarshalTypeError
        end
      else decodeEventMembers rest into
  end.

(** [json.Unmarshal] into a zero [PacMetadataPublishEvent].  The model does
    not reproduce the wording of the library's errors, only that there is
    one.  A key that comes again assigns the field again, an array into the
    elements of the slice that are there.  Outside the model: the limit on
    the depth of nesting, and what a slice that was cut short by a second
    array still holds in its capacity when a third one extends it. *)
Definition Unmarshal (data : string) : error + PacMetadataPublishEvent :=
  let zero := {| Event.UUID := ""; Event.Annotations := None |} in
  match parse data with
  | None => inl syntaxError
  | Some (JObject members) => decodeEventMembers members zero
  | Some JNull => inr zero
  | Some _ => inl unmarshalTypeError
  end.

Definition hexDigit (n : nat) : ascii :=
  if (n <? 10)%nat then ascii_of_nat (48 + n) else ascii_of_nat (87 + n).

(** How a byte below 128 is written: a quote and a backslash behind a
    backslash; backspace, form feed, line feed, carriage return and tab by
    their letters (backspace and form feed as of Go 1.22, before that as
    [u0008] and [u000c]); the other control characters and the three HTML
    characters as [u00XX] escapes; everything else as it is. *)
Definition encodeByte (c : ascii) : string :=
  let n := nat_of_ascii c in
  let backslash := ascii_of_nat 92 in
  if (n =? 34)%nat || (n =? 92)%nat then String backslash (String c EmptyString)
  else if (n =? 8)%nat then String backslash "b"
  else if (n =? 12)%nat then String backslash "f"
  else if (n =? 10)%nat then String backslash "n"
  else if (n =? 13)%nat then String backslash "r"
  else if (n =? 9)%nat then String backslash "t"
  else if (n <? 32)%nat || (n =? 60)%nat || (n =? 62)%nat || (n =? 38)%nat then
    String backslash
      ("u00" +:+ String (hexDigit (n / 16)) (String (hexDigit (n mod 16)) EmptyString))
  else String c EmptyString.

(** The last digit of the escape of U+2028 or U+2029, when [s] starts with
    one of the two. *)
Definition lineSeparator (s : string) : option ascii :=
  match s with
  | String b0 (String b1 (String b2 _)) =>
      if isByte b0 226 && isByte b1 128 then
        if isByte b2 168 then Some "8"%char
        else if isByte b2 169 then Some "9"%char
        else None
      else None
  | _ => None
  end.

(** The bytes of a string, as written between the quotes: the bytes below
    128 by [encodeByte]; a byte that does not start well-formed UTF-8 as the
    escape of U+FFFD; U+2028 and U+2029 as escapes; any other character
    as it is. *)
Fixpoint encodeBytes (fuel : nat) (s : string) : string :=
  match fuel with
  | O => EmptyString
  | S fuel' =>
      match s with
      | EmptyString => EmptyString
      | String c rest =>
          let backslash := ascii_of_nat 92 in
          if (nat_of_ascii c <? 128)%nat then encodeByte c +:+ encodeBytes fuel' rest
          else
            match runeSize s with
            | None => String backslash "ufffd" +:+ encodeBytes fuel' rest
            | Some size =>
                match lineSeparator s with
                | Some d =>
                    String backslash ("u202" +:+ String d EmptyString)
                    +:+ encodeBytes fuel' (dropBytes 3 s)
                | None => takeBytes size s +:+ encodeBytes fuel' (dropBytes size s)
                end
            end
      end
  end.

Definition encodeString (s : string) : string :=
  String quote (encodeBytes (String.length s) s) +:+ String quote EmptyString.

(** The bytes that every release of the library writes as they are: the
    printable ASCII characters other than the quote, the backslash and the
    three HTML characters. *)
Definition isPlain (c : ascii) : bool :=
  let n := nat_of_ascii c in
  (32 <=? n)%nat && (n <=? 126)%nat
  && negb ((n =? 34)%nat || (n =? 92)%nat || (n =? 60)%nat || (n =? 62)%nat
           || (n =? 38)%nat).

Fixpoint allPlain (s : string) : bool :=
  match s with
  | EmptyString => true
  | String c rest => isPlain c && allPlain rest
  end.

(** Modelled from the spec: the names under which the fields of the three
    outbound structs are written ([uuid], [annotations], [thing], [id],
    [predicate], none of them omitted when empty); the struct declarations
    are not part of the handler's file.  [quoteString] is how a string is
    written. *)
Definition encodeAnnotationWith (quoteString : string → string) (a : annotation)
  : string :=
  dq "{'thing':{'id':" +:+ quoteString (Concept.ID (Concept.Thing a))
  +:+ dq ",'predicate':" +:+ quoteString (Concept.Predicate (Concept.Thing a))
  +:+ "}}".

(** A nil slice is written [null], any other slice as an array. *)
Definition encodeAnnotationsWith (quoteString : string → string)
    (s : slice annotation) : string :=
  match s with
  | None => "null"
  | Some l =>
      "[" +:+ String.concat "," (map (encodeAnnotationWith quoteString) l) +:+ "]"
  end.

(** The layout that [json.Marshal] gives a [ConceptAnnotations], for a given
    way of writing strings; it has no failing case at this type. *)
Definition marshalWith (quoteString : string → string) (c : ConceptAnnotations)
  : error + string :=
  inr (dq "{'uuid':" +:+ quoteString (Concept.UUID c)
       +:+ dq ",'annotations':"
       +:+ encodeAnnotationsWith quoteString (Concept.Annotations c)
       +:+ "}").

Definition encodeAnnotation : annotation → string :=
  encodeAnnotationWith encodeString.

Definition encodeAnnotations : slice annotation → string :=
  encodeAnnotationsWith encodeString.

(** [json.Marshal] of a [ConceptAnnotations]. *)
Definition Marshal : ConceptAnnotations → error + string :=
  marshalWith encodeString.

Definition codec : JSON := Build_JSON Unmarshal Marshal.

End encoding_json.

(** ** What a run of the handler leaves behind *)

(** The warnings the loop writes: one per value that is not mapped. *)
Definition unmappedWarnings (mapper : AnnotationMapperService)
    (requestLog : list (string * Field))
    (values : list PacMetadataAnnotation) : list LogLine :=
  (λ value,
     {| level := WarnLevel;
        fields := WithField requestLog "metadata" (MetadataField value);
        message := "metadata for an unsupported predicate was not mapped" |})
  <$> filter (λ value, buildAnnotation mapper value = None) values.

(** The content of the map that [buildConceptAnnotationsHeader] allocates
    when it runs on [publishEventHeaders] in [w]. *)
Definition outboundHeaders (env : Env) (publishEventHeaders : option nat) (w : World)
  : gmap string string :=
  list_to_map [
    ("Message-Id", NewV4 env (uuids w));
    ("Message-Type", "concept-annotation");
    ("Content-Type", mapIndex w publishEventHeaders "Content-Type");
    ("X-Request-Id", mapIndex w publishEventHeaders "X-Request-Id");
    ("Origin-System-Id", mapIndex w publishEventHeaders "Origin-System-Id");
    ("Message-Timestamp", Format (Now env (clock w)) messageTimestampDateFormat)
  ].

Definition afterHeaders (env : Env) (publishEventHeaders : option nat) (w : World)
  : World :=
  {| heap := <[fresh (dom (heap w)) := outboundHeaders env publishEventHeaders w]> (heap w);
     uuids := S (uuids w); clock := S (clock w); sent := sent w; log := log w |}.

Definition outboundKeys : gset string :=
  {[ "Message-Id"; "Message-Type"; "Content-Type"; "X-Request-Id";
     "Origin-System-Id"; "Message-Timestamp" ]}.

(** The entry that the handler logs with, before the event is decoded. *)
Definition requestLogOf (msg : FTMessage) (w : World) : list (string * Field) :=
  [("transaction_id", StringField (mapIndex w (Headers msg) "X-Request-Id"))].

Definition skipLine (msg : FTMessage) (w : World) : LogLine :=
  {| level := InfoLevel; fields := requestLogOf msg w;
     message :=
       dq "Skipping annotations published with Origin-System-Id '"
       +:+ mapIndex w (Headers msg) "Origin-System-Id"
       +:+ dq "'. It does not match the configured whitelist." |}.

(** What the handler logs between a successful decode and the encode. *)
Definition mappingLog (mapper : AnnotationMapperService) (msg : FTMessage) (w : World)
    (ev : PacMetadataPublishEvent) : list LogLine :=
  let requestLog :=
    WithField (requestLogOf msg w) "uuid" (StringField (Event.UUID ev)) in
  {| level := InfoLevel; fields := requestLog;
     message := "Processing metadata publish event" |}
  :: unmappedWarnings mapper requestLog (elems (Event.Annotations ev)).

(** The envelope the handler builds from a decoded event. *)
Definition envelopeOf (mapper : AnnotationMapperService) (ev : PacMetadataPublishEvent)
  : ConceptAnnotations :=
  {| Concept.UUID := Event.UUID ev;
     Concept.Annotations :=
       Some (omap (buildAnnotation mapper) (elems (Event.Annotations ev))) |}.

(** The world in which the producer is called, and the message it gets. *)
Definition sendWorld (env : Env) (mapper : AnnotationMapperService) (msg : FTMessage)
    (w : World) (ev : PacMetadataPublishEvent) : World :=
  afterHeaders env (Headers msg) (addLog (mappingLog mapper msg w ev) w).

Definition outboundMessage (w : World) (body : string) : FTMessage :=
  {| Headers := Some (fresh (dom (heap w))); Body := body |}.

(** ** The shape of a timestamp *)




(** The fields of a reading of the clock are those of a calendar date and a
    time of day, in a year of four digits. *)
Definition validTime (t : Time) : Prop :=
  (0 <= year t <= 9999 ∧ 1 <= month t <= 12 ∧ 1 <= day t <= 31
   ∧ 0 <= hour t <= 23 ∧ 0 <= minute t <= 59 ∧ 0 <= second t <= 59
   ∧ 0 <= nanosecond t <= 999999999)%Z.

Fixpoint allDigits (n : nat) (s : string) : bool :=
  match n, s with
  | O, EmptyString => true
  | S n', String c s' => encoding_json.isDigitChar c && allDigits n' s'
  | _, _ => false
  end.

(** ** The lines and the world at the end of a run *)

#[global] Instance Level_eq_dec : EqDecision Level.
Proof. solve_decision. Defined.

Definition decodeErrorLine (msg : FTMessage) (w : World) (err : error) : LogLine :=
  {| level := ErrorLevel; fields := requestLogOf msg w;
     message := "Cannot unmarshal message body" +:+ err |}.

Definition encodeErrorLine (msg : FTMessage) (w : World)
    (ev : PacMetadataPublishEvent) (err : error) : LogLine :=
  {| level := ErrorLevel;
     fields := WithField (requestLogOf msg w) "uuid" (StringField (Event.UUID ev));
     message := "Error marshalling the concept annotations" +:+ err |}.

(** The last line of a run that reached the producer, by the producer's
    answer. *)
Definition outcomeLine (msg : FTMessage) (w : World)
    (ev : PacMetadataPublishEvent) (answer : option error) : LogLine :=
  {| level := match answer with Some _ => ErrorLevel | None => InfoLevel end;
     fields := WithField (requestLogOf msg w) "uuid" (StringField (Event.UUID ev));
     message :=
       match answer with
       | Some e => "Error sending concept annotation to queue" +:+ e
       | None => "Sent annotation message to queue"
       end |}.

(** The world after a run that reached the producer. *)
Definition afterSend (env : Env) (mapper : AnnotationMapperService) (msg : FTMessage)
    (w : World) (ev : PacMetadataPublishEvent) (body : string) : World :=
  let answer :=
    messageProducer mapper (sendWorld env mapper msg w ev) (outboundMessage w body) in
  {| heap := heap (sendWorld env mapper msg w ev);
     uuids := S (uuids w); clock := S (clock w);
     sent := sent w ++ [outboundMessage w body];
     log := log w ++ mappingLog mapper msg w ev ++ [outcomeLine msg w ev answer] |}.

(** ** Order of timestamps *)

(** The fields of a reading that the layout of the package prints, the most
    significant first; the last one is the millisecond. *)
Definition printedFields (t : Time) : list Z :=
  [year t; month t; day t; hour t; minute t; second t; nanosecond t / 1000000]%Z.

Fixpoint lexCompare (xs ys : list Z) : comparison :=
  match xs, ys with
  | [], [] => Eq
  | [], _ :: _ => Lt
  | _ :: _, [] => Gt
  | x :: xs', y :: ys' =>
      match (x ?= y)%Z with
      | Eq => lexCompare xs' ys'
      | c => c
      end
  end.

(** The number that a run of decimal digits writes. *)
Fixpoint digitsValue (s : string) : Z :=
  match s with
  | EmptyString => 0
  | String c s' =>
      (Z.of_nat (nat_of_ascii c) - 48) * 10 ^ Z.of_nat (String.length s')
      + digitsValue s'
  end%Z.

(** ** The same instant in UTC *)




(** ** A concrete setting, for examples *)

Module Example.
Definition headers : gmap string string :=
  list_to_map [
    ("X-Request-Id", "tid_0123");
    ("Origin-System-Id", "http://cmdb.ft.com/systems/pac");
    ("Content-Type", "application/json");
    ("Message-Id", "c4c8b1a4-0000-4000-8000-000000000000");
    ("X-B3-TraceId", "463ac35c9f6413ad")
  ].

(** One inbound header map at address 0, nothing sent or logged yet. *)
Definition world : World :=
  {| heap := {[ 0%nat := headers ]}; uuids := 0; clock := 0; sent := []; log := [] |}.

Definition env : Env :=
  {| NewV4 := λ n,
       "5f0f4a3e-8a2c-4b6d-9e3f-00000000000" +:+ String (digit (Z.of_nat n mod 10)) "";
     Now := λ n,
       {| year := 2018; month := 3; day := 9; hour := 14; minute := 5;
          second := 7; nanosecond := 42000000 + Z.of_nat n |} |}.


(** A whitelist in the manner of [^http://cmdb\.ft\.com/systems/pac]. *)
Definition pacOnly (systemCode : string) : bool :=
  String.prefix "http://cmdb.ft.com/systems/pac" systemCode.

Definition accepting : AnnotationMapperService :=
  NewAnnotationMapperService pacOnly (λ _ _, None).

Definition failing : AnnotationMapperService :=
  NewAnnotationMapperService pacOnly (λ _ _, Some "kafka: broker not available").

Definition methodeOnly : AnnotationMapperService :=
  NewAnnotationMapperService
    (String.prefix "http://cmdb.ft.com/systems/methode-web-pub") (λ _ _, None).

Definition body : string :=
  dq "{'uuid':'u1','annotations':[{'conceptId':'c1','predicate':'http://www.ft.com/ontology/annotation/about'},{'conceptId':'c2','predicate':'http://unknown/x'}]}".

Definition msg : FTMessage := {| Headers := Some 0%nat; Body := body |}.

Definition malformed : FTMessage := {| Headers := Some 0%nat; Body := "{not json" |}.

(** A codec whose encoder always fails. *)
Definition brokenEncoder : JSON :=
  {| Unmarshal := encoding_json.Unmarshal;
     Marshal := λ _, inl "json: unsupported type" |}.

Definition about : PacMetadataAnnotation :=
  {| Event.ConceptId := "c1";
     Event.Predicate := "http://www.ft.com/ontology/annotation/about" |}.

Definition unknown : PacMetadataAnnotation :=
  {| Event.ConceptId := "c2"; Event.Predicate := "http://unknown/x" |}.

Definition event : PacMetadataPublishEvent :=
  {| Event.UUID := "u1"; Event.Annotations := Some [about; unknown] |}.
End Example.

(** * Properties *)

(** ** Running the monad *)

Lemma addLog_nil (w : World) : addLog [] w = w.
Proof. destruct w; unfold addLog; simpl; by rewrite app_nil_r. Qed.

Lemma addLog_addLog (l1 l2 : list LogLine) (w : World) :
  addLog l2 (addLog l1 w) = addLog (l1 ++ l2) w.
Proof. unfold addLog; simpl; by rewrite app_assoc. Qed.

Lemma bind_run {A B} (m : M A) (k : A -> M B) (w : World) :
  (m ≫= k) w = k (m w).1 (m w).2.
Proof. unfold mbind, M_bind. by destruct (m w). Qed.

(** ** The mapping loop *)

Section Mapping.
Context (mapper : AnnotationMapperService).

Lemma rangeAnnotations_run requestLog values :
  ∀ (l : list annotation) (w : World),
    rangeAnnotations mapper requestLog values (Some l) w
    = (Some (l ++ omap (buildAnnotation mapper) values),
       addLog (unmappedWarnings mapper requestLog values) w).
Proof.
  induction values as [|value rest IH]; intros l w.
  - cbn. by rewrite app_nil_r, addLog_nil.
  - cbn [rangeAnnotations omap list_omap]. unfold unmappedWarnings.
    destruct (buildAnnotation mapper value) as [ann|] eqn:Hb.
    + rewrite filter_cons_False by congruence.
      unfold append; cbn [elems default]. rewrite IH.
      by rewrite <- app_assoc.
    + rewrite filter_cons_True by done.
      rewrite bind_run. cbn [fst snd logLine]. rewrite IH.
      by rewrite addLog_addLog.
Qed.

Lemma buildAnnotation_Some (metadata : PacMetadataAnnotation) (predicate : string) :
  predicates !! Event.Predicate metadata = Some predicate →
  buildAnnotation mapper metadata
  = Some {| Concept.Thing :=
              {| Concept.ID := Event.ConceptId metadata;
                 Concept.Predicate := predicate |} |}.
Proof. intros H. unfold buildAnnotation. by rewrite H. Qed.

Lemma buildAnnotation_None (metadata : PacMetadataAnnotation) :
  predicates !! Event.Predicate metadata = None ↔
  buildAnnotation mapper metadata = None.
Proof.
  unfold buildAnnotation.
  destruct (predicates !! Event.Predicate metadata); split; congruence.
Qed.
End Mapping.

(** ** The header deriver, run *)

Lemma buildConceptAnnotationsHeader_run env publishEventHeaders w :
  buildConceptAnnotationsHeader env publishEventHeaders w
  = (Some (fresh (dom (heap w))), afterHeaders env publishEventHeaders w).
Proof. reflexivity. Qed.

(** ** The four ways through HandleMessage *)

Section Paths.
Context (env : Env) (json : JSON) (mapper : AnnotationMapperService).
Context (msg : FTMessage) (w : World).

Lemma HandleMessage_skip :
  whitelist mapper (mapIndex w (Headers msg) "Origin-System-Id") = false →
  HandleMessage env json mapper msg w = (None, addLog [skipLine msg w] w).
Proof.
  intros Hw. unfold HandleMessage.
  rewrite !bind_run. cbn [index fst snd]. rewrite Hw. reflexivity.
Qed.

Lemma HandleMessage_decode_error (err : error) :
  whitelist mapper (mapIndex w (Headers msg) "Origin-System-Id") = true →
  Unmarshal json (Body msg) = inl err →
  HandleMessage env json mapper msg w
  = (Some err,
     addLog [{| level := ErrorLevel; fields := requestLogOf msg w;
                message := "Cannot unmarshal message body" +:+ err |}] w).
Proof.
  intros Hw Hd. unfold HandleMessage.
  rewrite !bind_run. cbn [index fst snd]. rewrite Hw, Hd. reflexivity.
Qed.

Lemma HandleMessage_encode_error (ev : PacMetadataPublishEvent) (err : error) :
  whitelist mapper (mapIndex w (Headers msg) "Origin-System-Id") = true →
  Unmarshal json (Body msg) = inr ev →
  Marshal json (envelopeOf mapper ev) = inl err →
  HandleMessage env json mapper msg w
  = (Some err,
     addLog (mappingLog mapper msg w ev ++
             [{| level := ErrorLevel;
                 fields := WithField (requestLogOf msg w) "uuid" (StringField (Event.UUID ev));
                 message := "Error marshalling the concept annotations" +:+ err |}]) w).
Proof.
  intros Hw Hd He. unfold HandleMessage.
  rewrite !bind_run. cbn [index fst snd]. rewrite Hw, Hd. cbn [negb].
  rewrite !bind_run. cbn [logLine fst snd].
  rewrite rangeAnnotations_run. cbn [fst snd app].
  unfold envelopeOf in He. rewrite He.
  rewrite bind_run. cbn [logLine fst snd mret M_ret].
  rewrite !addLog_addLog. reflexivity.
Qed.

Lemma HandleMessage_send (ev : PacMetadataPublishEvent) (body : string) :
  whitelist mapper (mapIndex w (Headers msg) "Origin-System-Id") = true →
  Unmarshal json (Body msg) = inr ev →
  Marshal json (envelopeOf mapper ev) = inr body →
  let r := HandleMessage env json mapper msg w in
  r.1 = messageProducer mapper (sendWorld env mapper msg w ev) (outboundMessage w body)
  ∧ sent r.2 = sent w ++ [outboundMessage w body]
  ∧ heap r.2 = heap (sendWorld env mapper msg w ev)
  ∧ uuids r.2 = S (uuids w)
  ∧ clock r.2 = S (clock w).
Proof.
  intros Hw Hd He. unfold HandleMessage.
  rewrite !bind_run. cbn [index fst snd]. rewrite Hw, Hd. cbn [negb].
  rewrite !bind_run. cbn [logLine fst snd].
  rewrite rangeAnnotations_run. cbn [fst snd app].
  unfold envelopeOf in He. rewrite He.
  rewrite !bind_run. rewrite buildConceptAnnotationsHeader_run.
  cbn [fst snd SendMessage].
  rewrite addLog_addLog. cbn [app].
  change (addLog _ w) with (addLog (mappingLog mapper msg w ev) w).
  change (afterHeaders env (Headers msg) (addLog (mappingLog mapper msg w ev) w))
    with (sendWorld env mapper msg w ev).
  change {| Headers := _; Body := body |} with (outboundMessage w body).
  destruct (messageProducer mapper (sendWorld env mapper msg w ev) (outboundMessage w body));
    unfold mbind, M_bind, logLine, mret, M_ret;
    cbn [fst snd addLog heap uuids clock sent afterHeaders sendWorld];
    repeat split; reflexivity.
Qed.
End Paths.

(** ** The predicate table is one to one *)

Lemma predicates_elem_of (key short : string) :
  predicates !! key = Some short →
  (key, short) ∈ [
    ("http://www.ft.com/ontology/classification/isClassifiedBy", "isClassifiedBy");
    ("http://www.ft.com/ontology/annotation/hasAuthor", "hasAuthor");
    ("http://www.ft.com/ontology/annotation/hasContributor", "hasContributor");
    ("http://www.ft.com/ontology/annotation/about", "about");
    ("http://www.ft.com/ontology/annotation/hasDisplayTag", "hasDisplayTag");
    ("http://www.ft.com/ontology/annotation/mentions", "mentions")
  ].
Proof. unfold predicates. apply elem_of_list_to_map_2. Qed.

Lemma predicates_inj (key1 key2 short : string) :
  predicates !! key1 = Some short →
  predicates !! key2 = Some short →
  key1 = key2.
Proof.
  intros H1%predicates_elem_of H2%predicates_elem_of.
  rewrite !elem_of_cons, elem_of_nil in H1, H2.
  intuition congruence.
Qed.

Lemma buildAnnotation_inj mapper (a a' : PacMetadataAnnotation) (out : annotation) :
  buildAnnotation mapper a = Some out →
  buildAnnotation mapper a' = Some out →
  a = a'.
Proof.
  unfold buildAnnotation.
  destruct (predicates !! Event.Predicate a) as [p|] eqn:Hp; [|done].
  destruct (predicates !! Event.Predicate a') as [p'|] eqn:Hp'; [|done].
  intros [= <-] [= Hid <-].
  pose proof (predicates_inj _ _ _ Hp Hp') as Hk.
  destruct a, a'; simpl in *; congruence.
Qed.

(** Counting through [omap] with a function that is one to one where it is
    defined. *)
Lemma count_occ_omap_inj {A B} `{EqDecision A, EqDecision B}
    (f : A → option B) (l : list A) (a : A) (b : B) :
  (∀ a', f a' = Some b → a' = a) →
  f a = Some b →
  count_occ (decide_rel (=)) (omap f l) b = count_occ (decide_rel (=)) l a.
Proof.
  intros Hinj Hf. induction l as [|x l IH]; [done|].
  cbn [omap list_omap count_occ].
  destruct (f x) as [y|] eqn:Hx.
  - cbn [count_occ]. destruct (decide_rel eq y b) as [->|Hne].
    + rewrite (Hinj _ Hx). destruct (decide_rel eq a a); [|done]. by rewrite IH.
    + destruct (decide_rel eq x a) as [->|]; [congruence|done].
  - destruct (decide_rel eq x a) as [->|]; [congruence|done].
Qed.

Lemma omap_filter_fmap {A B} (f : A → option B) (g : A → B) (l : list A) :
  (∀ a b, f a = Some b → g a = b) →
  omap f l = g <$> filter (λ a, is_Some (f a)) l.
Proof.
  intros Hg. induction l as [|x l IH]; [done|].
  cbn [omap list_omap]. destruct (f x) as [y|] eqn:Hx.
  - rewrite filter_cons_True by (rewrite Hx; eauto).
    cbn. by rewrite (Hg _ _ Hx), IH.
  - rewrite filter_cons_False by (rewrite Hx; by intros [? ?]).
    done.
Qed.

Lemma length_omap_filter {A B} (f : A → option B) (l : list A) :
  length (omap f l) + length (filter (λ a, f a = None) l) = length l.
Proof.
  induction l as [|x l IH]; [done|].
  cbn [omap list_omap]. destruct (f x) as [y|] eqn:Hx.
  - rewrite filter_cons_False by congruence. cbn. lia.
  - rewrite filter_cons_True by done. cbn. lia.
Qed.

(** ** Mapping of the annotations *)

(** C1: when the handler is past the whitelist and has decoded the event
    [ev], its envelope holds, for a raw annotation [a] whose predicate the
    table maps to [short], the annotation [{Thing: {ID: a.ConceptId,
    Predicate: short}}] exactly as often as [a] occurs in the event; and the
    envelope (same UUID, these annotations) is what is marshalled, whatever
    the encoder, into the body of the one message sent. *)
Theorem known_predicate_one_annotation_per_occurrence
    (env : Env) (unmarshal : string → error + PacMetadataPublishEvent)
    (mapper : AnnotationMapperService)
    (msg : FTMessage) (w : World) (ev : PacMetadataPublishEvent)
    (a : PacMetadataAnnotation) (short : string) :
  whitelist mapper (mapIndex w (Headers msg) "Origin-System-Id") = true →
  unmarshal (Body msg) = inr ev →
  predicates !! Event.Predicate a = Some short →
  let out :=
    {| Concept.Thing :=
         {| Concept.ID := Event.ConceptId a; Concept.Predicate := short |} |} in
  ∃ anns : list annotation,
    buildAnnotation mapper a = Some out
    ∧ count_occ (decide_rel (=)) anns out
      = count_occ (decide_rel (=)) (elems (Event.Annotations ev)) a
    ∧ ∀ marshal body,
        marshal {| Concept.UUID := Event.UUID ev;
                   Concept.Annotations := Some anns |} = inr body →
        sent (HandleMessage env {| Unmarshal := unmarshal; Marshal := marshal |}
                mapper msg w).2
        = sent w ++ [{| Headers := Some (fresh (dom (heap w))); Body := body |}].
Proof.
  intros Hw Hd Hp out.
  exists (omap (buildAnnotation mapper) (elems (Event.Annotations ev))).
  pose proof (buildAnnotation_Some mapper a short Hp) as Hb.
  split; [exact Hb|]. split.
  - apply count_occ_omap_inj; [|exact Hb].
    intros a' Ha'. exact (buildAnnotation_inj mapper a' a out Ha' Hb).
  - intros marshal body He.
    exact (proj1 (proj2 (HandleMessage_send env
             {| Unmarshal := unmarshal; Marshal := marshal |}
             mapper msg w ev body Hw Hd He))).
Qed.

Lemma known_predicate_one_annotation_per_occurrence_witness :
  ∃ anns : list annotation,
    buildAnnotation Example.accepting Example.about
    = Some {| Concept.Thing := {| Concept.ID := "c1"; Concept.Predicate := "about" |} |}
    ∧ count_occ (decide_rel (=)) anns
        {| Concept.Thing := {| Concept.ID := "c1"; Concept.Predicate := "about" |} |}
      = count_occ (decide_rel (=)) (elems (Event.Annotations Example.event)) Example.about
    ∧ ∀ marshal body,
        marshal {| Concept.UUID := "u1"; Concept.Annotations := Some anns |} = inr body →
        sent (HandleMessage Example.env
                {| Unmarshal := encoding_json.Unmarshal; Marshal := marshal |}
                Example.accepting Example.msg Example.world).2
        = sent Example.world
          ++ [{| Headers := Some (fresh (dom (heap Example.world))); Body := body |}].
Proof.
  apply (known_predicate_one_annotation_per_occurrence
           Example.env encoding_json.Unmarshal Example.accepting Example.msg
           Example.world Example.event Example.about "about");
    vm_compute; reflexivity.
Defined.

(** C2: past the whitelist and with the event decoded, a raw annotation whose
    predicate is not in the table gives no outbound annotation; the envelope
    that is marshalled and sent holds the images of the mapped raw
    annotations, in the order of the input, so their number is that of the
    input less the unmapped ones. *)
Theorem unknown_predicates_dropped_order_kept
    (env : Env) (unmarshal : string → error + PacMetadataPublishEvent)
    (mapper : AnnotationMapperService)
    (msg : FTMessage) (w : World) (ev : PacMetadataPublishEvent) :
  whitelist mapper (mapIndex w (Headers msg) "Origin-System-Id") = true →
  unmarshal (Body msg) = inr ev →
  let input := elems (Event.Annotations ev) in
  let image (a : PacMetadataAnnotation) : annotation :=
    {| Concept.Thing :=
         {| Concept.ID := Event.ConceptId a;
            Concept.Predicate := default "" (predicates !! Event.Predicate a) |} |} in
  ∃ anns : list annotation,
    (∀ a, predicates !! Event.Predicate a = None → buildAnnotation mapper a = None)
    ∧ anns = image <$> filter (λ a, is_Some (predicates !! Event.Predicate a)) input
    ∧ length anns
      = length input - length (filter (λ a, predicates !! Event.Predicate a = None) input)
    ∧ ∀ marshal body,
        marshal {| Concept.UUID := Event.UUID ev;
                   Concept.Annotations := Some anns |} = inr body →
        sent (HandleMessage env {| Unmarshal := unmarshal; Marshal := marshal |}
                mapper msg w).2
        = sent w ++ [{| Headers := Some (fresh (dom (heap w))); Body := body |}].
Proof.
  intros Hw Hd input image.
  exists (omap (buildAnnotation mapper) input).
  split; [intros a Ha; by apply buildAnnotation_None|].
  split; [|split].
  - rewrite (omap_filter_fmap (buildAnnotation mapper) image).
    + f_equal. apply list_filter_iff. intros a. unfold buildAnnotation.
      destruct (predicates !! Event.Predicate a); split; intros [? ?]; eauto; done.
    + intros a b. unfold buildAnnotation, image.
      destruct (predicates !! Event.Predicate a); [|done]. by intros [= <-].
  - pose proof (length_omap_filter (buildAnnotation mapper) input) as Hlen.
    assert (filter (λ a, predicates !! Event.Predicate a = None) input
            = filter (λ a, buildAnnotation mapper a = None) input) as ->
      by (apply list_filter_iff; intros a; apply buildAnnotation_None).
    lia.
  - intros marshal body He.
    exact (proj1 (proj2 (HandleMessage_send env
             {| Unmarshal := unmarshal; Marshal := marshal |}
             mapper msg w ev body Hw Hd He))).
Qed.

Lemma unknown_predicates_dropped_order_kept_witness :
  ∃ anns : list annotation,
    (∀ a, predicates !! Event.Predicate a = None →
          buildAnnotation Example.accepting a = None)
    ∧ anns = [{| Concept.Thing := {| Concept.ID := "c1"; Concept.Predicate := "about" |} |}]
    ∧ length anns = 1
    ∧ ∀ marshal body,
        marshal {| Concept.UUID := "u1"; Concept.Annotations := Some anns |} = inr body →
        sent (HandleMessage Example.env
                {| Unmarshal := encoding_json.Unmarshal; Marshal := marshal |}
                Example.accepting Example.msg Example.world).2
        = sent Example.world
          ++ [{| Headers := Some (fresh (dom (heap Example.world))); Body := body |}].
Proof.
  apply (unknown_predicates_dropped_order_kept
           Example.env encoding_json.Unmarshal Example.accepting Example.msg
           Example.world Example.event);
    vm_compute; reflexivity.
Defined.

(** ** The whitelist gate *)

(** C3: when the value of the Origin-System-Id header does not match the
    whitelist, the handler returns nil, the producer is not called, no UUID is
    drawn, no map is built and the clock is not read; the one thing done is
    the log line.  The body plays no part: any other body and any other
    decoder give the same result. *)
Theorem not_whitelisted_is_skipped
    (env : Env) (json : JSON) (mapper : AnnotationMapperService)
    (msg : FTMessage) (w : World) :
  whitelist mapper (mapIndex w (Headers msg) "Origin-System-Id") = false →
  let r := HandleMessage env json mapper msg w in
  r.1 = None
  ∧ sent r.2 = sent w
  ∧ heap r.2 = heap w ∧ uuids r.2 = uuids w ∧ clock r.2 = clock w
  ∧ log r.2 = log w ++ [skipLine msg w]
  ∧ ∀ (json' : JSON) (body' : string),
      HandleMessage env json' mapper {| Headers := Headers msg; Body := body' |} w = r.
Proof.
  intros Hw r. subst r. rewrite (HandleMessage_skip env json mapper msg w Hw).
  repeat split.
  intros json' body'.
  exact (HandleMessage_skip env json' mapper {| Headers := Headers msg; Body := body' |} w Hw).
Qed.

Lemma not_whitelisted_is_skipped_witness :
  let r := HandleMessage Example.env encoding_json.codec Example.methodeOnly
             Example.msg Example.world in
  r.1 = None ∧ sent r.2 = [].
Proof.
  pose proof (not_whitelisted_is_skipped Example.env encoding_json.codec
                Example.methodeOnly Example.msg Example.world eq_refl) as H.
  exact (conj (proj1 H) (proj1 (proj2 H))).
Defined.

(** ** Failures *)

(** C4: past the whitelist, when the body does not decode, the handler
    returns the decoder's error; the producer is not called and nothing of an
    outbound message is made (no UUID drawn, no map built, no clock read). *)
Theorem decode_failure_is_returned
    (env : Env) (json : JSON) (mapper : AnnotationMapperService)
    (msg : FTMessage) (w : World) (err : error) :
  whitelist mapper (mapIndex w (Headers msg) "Origin-System-Id") = true →
  Unmarshal json (Body msg) = inl err →
  let r := HandleMessage env json mapper msg w in
  r.1 = Some err
  ∧ sent r.2 = sent w
  ∧ heap r.2 = heap w ∧ uuids r.2 = uuids w ∧ clock r.2 = clock w.
Proof.
  intros Hw Hd r. subst r.
  rewrite (HandleMessage_decode_error env json mapper msg w err Hw Hd).
  repeat split.
Qed.

Lemma decode_failure_is_returned_witness :
  let r := HandleMessage Example.env encoding_json.codec Example.accepting
             Example.malformed Example.world in
  r.1 = Some encoding_json.syntaxError ∧ sent r.2 = [].
Proof.
  pose proof (decode_failure_is_returned Example.env encoding_json.codec
                Example.accepting Example.malformed Example.world
                encoding_json.syntaxError eq_refl eq_refl) as H.
  exact (conj (proj1 H) (proj1 (proj2 H))).
Defined.

(** The producer is called at most once by one run of the handler. *)
Lemma HandleMessage_sends_at_most_once
    (env : Env) (json : JSON) (mapper : AnnotationMapperService)
    (msg : FTMessage) (w : World) :
  let r := HandleMessage env json mapper msg w in
  sent r.2 = sent w ∨ ∃ message, sent r.2 = sent w ++ [message].
Proof.
  intros r. subst r.
  destruct (whitelist mapper (mapIndex w (Headers msg) "Origin-System-Id")) eqn:Hw.
  - destruct (Unmarshal json (Body msg)) as [err|ev] eqn:Hd.
    + left. by rewrite (HandleMessage_decode_error env json mapper msg w err Hw Hd).
    + destruct (Marshal json (envelopeOf mapper ev)) as [err|body] eqn:He.
      * left. by rewrite (HandleMessage_encode_error env json mapper msg w ev err Hw Hd He).
      * right. exists (outboundMessage w body).
        exact (proj1 (proj2 (HandleMessage_send env json mapper msg w ev body Hw Hd He))).
  - left. by rewrite (HandleMessage_skip env json mapper msg w Hw).
Qed.

(** C8: past the whitelist, each of the three failures ends the run with that
    very error as the result: a decode failure and an encode failure with the
    producer not called, a send failure with the producer called once, on the
    message that failed, and not again. *)
Theorem fatal_errors_abort_without_retry
    (env : Env) (json : JSON) (mapper : AnnotationMapperService)
    (msg : FTMessage) (w : World) :
  whitelist mapper (mapIndex w (Headers msg) "Origin-System-Id") = true →
  let r := HandleMessage env json mapper msg w in
  (∀ err, Unmarshal json (Body msg) = inl err →
     r.1 = Some err ∧ sent r.2 = sent w)
  ∧ (∀ ev err,
       Unmarshal json (Body msg) = inr ev →
       Marshal json (envelopeOf mapper ev) = inl err →
       r.1 = Some err ∧ sent r.2 = sent w)
  ∧ (∀ ev body err,
       Unmarshal json (Body msg) = inr ev →
       Marshal json (envelopeOf mapper ev) = inr body →
       messageProducer mapper (sendWorld env mapper msg w ev) (outboundMessage w body)
       = Some err →
       r.1 = Some err ∧ sent r.2 = sent w ++ [outboundMessage w body]).
Proof.
  intros Hw r. subst r. split; [|split].
  - intros err Hd.
    by rewrite (HandleMessage_decode_error env json mapper msg w err Hw Hd).
  - intros ev err Hd He.
    by rewrite (HandleMessage_encode_error env json mapper msg w ev err Hw Hd He).
  - intros ev body err Hd He Hs.
    destruct (HandleMessage_send env json mapper msg w ev body Hw Hd He)
      as (Hr & Hsent & _).
    rewrite Hr, Hs, Hsent. done.
Qed.

Lemma fatal_errors_abort_without_retry_witness :
  (let r := HandleMessage Example.env encoding_json.codec Example.accepting
              Example.malformed Example.world in
   r.1 = Some encoding_json.syntaxError ∧ sent r.2 = sent Example.world)
  ∧ (let r := HandleMessage Example.env Example.brokenEncoder Example.accepting
                Example.msg Example.world in
     r.1 = Some "json: unsupported type" ∧ sent r.2 = sent Example.world)
  ∧ (let r := HandleMessage Example.env encoding_json.codec Example.failing
                Example.msg Example.world in
     r.1 = Some "kafka: broker not available"
     ∧ length (sent r.2) = S (length (sent Example.world))).
Proof.
  split; [|split].
  - exact (proj1 (fatal_errors_abort_without_retry Example.env encoding_json.codec
                    Example.accepting Example.malformed Example.world eq_refl)
             encoding_json.syntaxError eq_refl).
  - exact (proj1 (proj2 (fatal_errors_abort_without_retry Example.env
                           Example.brokenEncoder Example.accepting Example.msg
                           Example.world eq_refl))
             Example.event "json: unsupported type" eq_refl eq_refl).
  - destruct (proj2 (proj2 (fatal_errors_abort_without_retry Example.env
                              encoding_json.codec Example.failing Example.msg
                              Example.world eq_refl))
                Example.event
                (dq "{'uuid':'u1','annotations':[{'thing':{'id':'c1','predicate':'about'}}]}")
                "kafka: broker not available" eq_refl eq_refl eq_refl) as [Hr Hs].
    split; [exact Hr|]. rewrite Hs. rewrite length_app. simpl. lia.
Defined.

(** ** Events without annotations, and the worked example *)

(** Plain bytes are written as they are. *)
Lemma encodeByte_plain (c : ascii) :
  encoding_json.isPlain c = true →
  (nat_of_ascii c <? 128)%nat = true
  ∧ encoding_json.encodeByte c = String c EmptyString.
Proof.
  destruct c as [[] [] [] [] [] [] [] []]; vm_compute; intros H;
    first [ discriminate H | split; reflexivity ].
Qed.

Lemma encodeBytes_plain (s : string) :
  ∀ fuel, (String.length s ≤ fuel)%nat →
          encoding_json.allPlain s = true →
          encoding_json.encodeBytes fuel s = s.
Proof.
  induction s as [|c s IH]; intros [|fuel] Hfuel Hplain; cbn in Hfuel;
    try reflexivity; try lia.
  cbn [encoding_json.allPlain] in Hplain.
  apply andb_prop in Hplain as [Hc Hs].
  destruct (encodeByte_plain c Hc) as [Hlow Henc].
  cbn [encoding_json.encodeBytes]. rewrite Hlow, Henc, (IH fuel) by (done || lia).
  reflexivity.
Qed.

Lemma string_app_assoc (a b c : string) : (a +:+ b) +:+ c = a +:+ (b +:+ c).
Proof.
  induction a as [|x a IH]; [reflexivity|].
  change (String x ((a +:+ b) +:+ c) = String x (a +:+ (b +:+ c))).
  by rewrite IH.
Qed.

Lemma encodeString_plain (s : string) :
  encoding_json.allPlain s = true →
  encoding_json.encodeString s = String quote (s +:+ String quote EmptyString).
Proof.
  intros Hplain. unfold encoding_json.encodeString.
  by rewrite (encodeBytes_plain s (String.length s)).
Qed.

(** C7: past the whitelist, an event whose annotation list is empty (or nil)
    is neither skipped nor refused.  The envelope handed to the encoder has
    the UUID of the event and an empty, non-nil list of annotations; the
    producer is called once, on the encoder's text, and the handler's result
    is the producer's (nil when the send succeeds).  In the layout of
    [encoding/json] the list is written [[]] and not [null], however the
    library writes the UUID; for a UUID of plain characters the body is
    [{"uuid":"<the UUID>","annotations":[]}]. *)
Theorem empty_annotations_still_sent
    (env : Env) (unmarshal : string → error + PacMetadataPublishEvent)
    (mapper : AnnotationMapperService)
    (msg : FTMessage) (w : World) (ev : PacMetadataPublishEvent) :
  whitelist mapper (mapIndex w (Headers msg) "Origin-System-Id") = true →
  unmarshal (Body msg) = inr ev →
  elems (Event.Annotations ev) = [] →
  (∀ marshal body,
     marshal {| Concept.UUID := Event.UUID ev; Concept.Annotations := Some [] |}
     = inr body →
     let r := HandleMessage env {| Unmarshal := unmarshal; Marshal := marshal |}
                mapper msg w in
     sent r.2 = sent w ++ [outboundMessage w body]
     ∧ r.1 = messageProducer mapper
               (sendWorld env mapper msg w ev) (outboundMessage w body))
  ∧ (∀ quoteString : string → string,
       let json :=
         {| Unmarshal := unmarshal;
            Marshal := encoding_json.marshalWith quoteString |} in
       let r := HandleMessage env json mapper msg w in
       let body :=
         dq "{'uuid':" +:+ quoteString (Event.UUID ev) +:+ dq ",'annotations':[]}" in
       sent r.2 = sent w ++ [outboundMessage w body]
       ∧ (messageProducer mapper (sendWorld env mapper msg w ev)
            (outboundMessage w body) = None → r.1 = None))
  ∧ (encoding_json.allPlain (Event.UUID ev) = true →
     let json := {| Unmarshal := unmarshal; Marshal := encoding_json.Marshal |} in
     let r := HandleMessage env json mapper msg w in
     sent r.2
     = sent w ++ [outboundMessage w
                    (dq "{'uuid':'" +:+ Event.UUID ev +:+ dq "','annotations':[]}")]).
Proof.
  intros Hw Hd Hempty.
  assert (Henv : envelopeOf mapper ev
                 = {| Concept.UUID := Event.UUID ev; Concept.Annotations := Some [] |})
    by (unfold envelopeOf; by rewrite Hempty).
  assert (Hany : ∀ marshal body,
            marshal {| Concept.UUID := Event.UUID ev; Concept.Annotations := Some [] |}
            = inr body →
            let r := HandleMessage env {| Unmarshal := unmarshal; Marshal := marshal |}
                       mapper msg w in
            sent r.2 = sent w ++ [outboundMessage w body]
            ∧ r.1 = messageProducer mapper
                      (sendWorld env mapper msg w ev) (outboundMessage w body)).
  { intros marshal body He r. subst r.
    destruct (HandleMessage_send env {| Unmarshal := unmarshal; Marshal := marshal |}
                mapper msg w ev body Hw Hd) as (Hr & Hs & _).
    { cbn [Marshal]. by rewrite Henv. }
    by split. }
  split; [exact Hany|]. split.
  - intros quoteString json r body. subst r json.
    destruct (Hany (encoding_json.marshalWith quoteString) body eq_refl) as [Hs Hr].
    split; [exact Hs|]. intros Hnil. by rewrite Hr.
  - intros Hplain json r. subst r json.
    refine (proj1 (Hany encoding_json.Marshal _ _)).
    unfold encoding_json.Marshal, encoding_json.marshalWith.
    cbn [Concept.UUID Concept.Annotations].
    rewrite (encodeString_plain _ Hplain). f_equal.
    change (dq "{'uuid':"
            +:+ String quote ((Event.UUID ev +:+ String quote EmptyString)
                              +:+ dq ",'annotations':[]}")
            = dq "{'uuid':"
              +:+ String quote (Event.UUID ev
                                +:+ String quote (dq ",'annotations':[]}"))).
    by rewrite string_app_assoc.
Qed.

Lemma empty_annotations_still_sent_witness :
  let msg := {| Headers := Some 0%nat; Body := dq "{'uuid':'u1','annotations':[]}" |} in
  let r := HandleMessage Example.env encoding_json.codec Example.accepting msg
             Example.world in
  sent r.2
  = sent Example.world
    ++ [outboundMessage Example.world (dq "{'uuid':'u1','annotations':[]}")]
  ∧ r.1 = None.
Proof.
  intros msg r.
  pose proof (empty_annotations_still_sent Example.env encoding_json.Unmarshal
                Example.accepting msg Example.world
                {| Event.UUID := "u1"; Event.Annotations := Some [] |}
                eq_refl eq_refl eq_refl) as (_ & Hquote & Hplain).
  split; [exact (Hplain eq_refl)|].
  exact (proj2 (Hquote encoding_json.encodeString) eq_refl).
Defined.

(** C9: for the body of the example (an [about] annotation on c1 and one with
    an unknown predicate on c2, for the content u1), arriving with an
    Origin-System-Id that matches the whitelist, the producer is called once,
    with the body
    [{"uuid":"u1","annotations":[{"thing":{"id":"c1","predicate":"about"}}]}]. *)
Theorem example_about_and_unknown
    (env : Env) (mapper : AnnotationMapperService) (msg : FTMessage) (w : World) :
  whitelist mapper (mapIndex w (Headers msg) "Origin-System-Id") = true →
  Body msg
  = dq "{'uuid':'u1','annotations':[{'conceptId':'c1','predicate':'http://www.ft.com/ontology/annotation/about'},{'conceptId':'c2','predicate':'http://unknown/x'}]}" →
  sent (HandleMessage env encoding_json.codec mapper msg w).2
  = sent w
    ++ [{| Headers := Some (fresh (dom (heap w)));
           Body := dq "{'uuid':'u1','annotations':[{'thing':{'id':'c1','predicate':'about'}}]}" |}].
Proof.
  intros Hw Hbody.
  refine (proj1 (proj2 (HandleMessage_send env encoding_json.codec mapper msg w
                          Example.event _ Hw _ _))).
  - rewrite Hbody. vm_compute. reflexivity.
  - vm_compute. reflexivity.
Qed.

Lemma example_about_and_unknown_witness :
  sent (HandleMessage Example.env encoding_json.codec Example.accepting
          Example.msg Example.world).2
  = [{| Headers := Some (fresh (dom (heap Example.world)));
        Body := dq "{'uuid':'u1','annotations':[{'thing':{'id':'c1','predicate':'about'}}]}" |}].
Proof.
  exact (example_about_and_unknown Example.env Example.accepting Example.msg
           Example.world eq_refl eq_refl).
Defined.

(** ** The outbound headers *)

Lemma outboundHeaders_dom env h w : dom (outboundHeaders env h w) = outboundKeys.
Proof.
  unfold outboundHeaders, outboundKeys. cbn [list_to_map foldr fst snd uncurry].
  rewrite !dom_insert_L, dom_empty_L. set_solver.
Qed.

(** C5: the header deriver allocates a map object that did not exist before
    and changes no other; its keys are the six outbound ones, Message-Id from
    the UUID generator (one more UUID drawn), Message-Type the constant,
    Content-Type, X-Request-Id and Origin-System-Id read from the inbound
    map, Message-Timestamp the formatted reading of the clock; any other key,
    whatever the inbound map holds, is absent. *)
Theorem outbound_headers_closed_set
    (env : Env) (publishEventHeaders : option nat) (w : World) :
  let r := buildConceptAnnotationsHeader env publishEventHeaders w in
  ∃ (l : nat) (out : gmap string string),
    r.1 = Some l
    ∧ heap w !! l = None
    ∧ heap r.2 = <[l := out]> (heap w)
    ∧ (∀ l', l' ≠ l → heap r.2 !! l' = heap w !! l')
    ∧ (∀ l0 inbound,
         publishEventHeaders = Some l0 → heap w !! l0 = Some inbound →
         l ≠ l0 ∧ heap r.2 !! l0 = Some inbound)
    ∧ dom out = outboundKeys
    ∧ out !! "Message-Id" = Some (NewV4 env (uuids w))
    ∧ uuids r.2 = S (uuids w)
    ∧ out !! "Message-Type" = Some "concept-annotation"
    ∧ out !! "Content-Type" = Some (mapIndex w publishEventHeaders "Content-Type")
    ∧ out !! "X-Request-Id" = Some (mapIndex w publishEventHeaders "X-Request-Id")
    ∧ out !! "Origin-System-Id"
      = Some (mapIndex w publishEventHeaders "Origin-System-Id")
    ∧ out !! "Message-Timestamp"
      = Some (Format (Now env (clock w)) messageTimestampDateFormat)
    ∧ ∀ k, k ∉ outboundKeys → out !! k = None.
Proof.
  intros r. subst r. rewrite buildConceptAnnotationsHeader_run.
  exists (fresh (dom (heap w))), (outboundHeaders env publishEventHeaders w).
  assert (Hfresh : heap w !! fresh (dom (heap w)) = None)
    by (apply not_elem_of_dom, is_fresh).
  split; [done|]. split; [exact Hfresh|]. split; [done|].
  split; [intros l' Hl'; cbn; by rewrite lookup_insert_ne|].
  split.
  { intros l0 inbound _ Hin.
    assert (fresh (dom (heap w)) ≠ l0) as Hne by congruence.
    split; [exact Hne|]. cbn. by rewrite lookup_insert_ne. }
  split; [apply outboundHeaders_dom|].
  repeat (split; [reflexivity|]).
  intros k Hk. apply not_elem_of_dom. by rewrite outboundHeaders_dom.
Qed.

Lemma outbound_headers_closed_set_witness :
  let r := buildConceptAnnotationsHeader Example.env (Some 0%nat) Example.world in
  ∃ (l : nat) (out : gmap string string),
    r.1 = Some l
    ∧ l ≠ 0%nat
    ∧ heap r.2 !! l = Some out
    ∧ heap r.2 !! 0%nat = Some Example.headers
    ∧ out !! "Message-Id" = Some "5f0f4a3e-8a2c-4b6d-9e3f-000000000000"
    ∧ out !! "Content-Type" = Some "application/json"
    ∧ out !! "X-B3-TraceId" = None.
Proof.
  intros r.
  destruct (outbound_headers_closed_set Example.env (Some 0%nat) Example.world)
    as (l & out & Hl & _ & Hheap & _ & Hin & _ & Hid & _ & _ & Hct & _ & _ & _ & Hclosed).
  exists l, out. fold r in Hl, Hheap, Hin.
  destruct (Hin 0%nat Example.headers eq_refl eq_refl) as [Hne Hold].
  split; [exact Hl|]. split; [exact Hne|].
  split; [rewrite Hheap; apply lookup_insert_eq|].
  split; [exact Hold|].
  split; [exact Hid|]. split; [exact Hct|].
  apply Hclosed. vm_compute. intros H. discriminate H.
Defined.

(** ** The timestamp *)

Lemma appendInt_allDigits (width : nat) (x : Z) :
  (width = 2 ∨ width = 3 ∨ width = 4)%nat →
  (0 <= x < 10 ^ Z.of_nat width)%Z →
  allDigits width (appendInt x width) = true.
Proof.
  intros Hwidth Hx.
  assert (Hall : forallb (λ i, allDigits width (appendInt (Z.of_nat i) width))
                   (seq 0 (10 ^ width)) = true).
  { destruct Hwidth as [->|[->| ->]]; vm_compute; reflexivity. }
  rewrite forallb_forall in Hall.
  specialize (Hall (Z.to_nat x)). rewrite Z2Nat.id in Hall by lia.
  apply Hall. apply in_seq.
  assert (Z.to_nat x < Z.to_nat (10 ^ Z.of_nat width))%nat by (apply Z2Nat.inj_lt; lia).
  assert (Z.to_nat (10 ^ Z.of_nat width) = (10 ^ width)%nat) as Hpow.
  { destruct Hwidth as [->|[->| ->]]; reflexivity. }
  lia.
Qed.








(** ** Missing headers *)

(** The message that a run of the handler sends carries, under each of the
    three copied keys, what the inbound map gives for that key. *)
Lemma HandleMessage_sent_headers
    (env : Env) (json : JSON) (mapper : AnnotationMapperService)
    (msg : FTMessage) (w : World) (message : FTMessage) (k : string) :
  let r := HandleMessage env json mapper msg w in
  sent r.2 = sent w ++ [message] →
  k ∈ ["X-Request-Id"; "Origin-System-Id"; "Content-Type"] →
  mapLookup r.2 (Headers message) k = Some (mapIndex w (Headers msg) k).
Proof.
  intros r Hsent Hk. subst r.
  assert (Hno : sent w ≠ sent w ++ [message]).
  { intros Heq. apply (f_equal length) in Heq. rewrite length_app in Heq.
    simpl in Heq. lia. }
  destruct (whitelist mapper (mapIndex w (Headers msg) "Origin-System-Id")) eqn:Hw.
  - destruct (Unmarshal json (Body msg)) as [err|ev] eqn:Hd.
    + rewrite (HandleMessage_decode_error env json mapper msg w err Hw Hd) in Hsent.
      done.
    + destruct (Marshal json (envelopeOf mapper ev)) as [err|body] eqn:He.
      * rewrite (HandleMessage_encode_error env json mapper msg w ev err Hw Hd He)
          in Hsent. done.
      * destruct (HandleMessage_send env json mapper msg w ev body Hw Hd He)
          as (_ & Hs & Hheap & _).
        rewrite Hs in Hsent. apply app_inj_tail in Hsent as [_ <-].
        unfold mapLookup. rewrite Hheap.
        unfold sendWorld, afterHeaders, outboundMessage.
        cbn [Headers heap mbind option_bind addLog].
        rewrite lookup_insert_eq. cbn [mbind option_bind].
        rewrite !elem_of_cons, elem_of_nil in Hk.
        destruct Hk as [->|[->|[->|[]]]]; reflexivity.
  - rewrite (HandleMessage_skip env json mapper msg w Hw) in Hsent. done.
Qed.

(** C10: a header that the inbound map does not hold reads as the empty
    string.  Without an Origin-System-Id the whitelist is asked about the
    empty string: the message is skipped when that does not match, and goes on
    to be decoded, mapped and sent when it does.  A message that is sent
    carries the empty string under each copied key that was missing. *)
Theorem missing_headers_read_as_empty
    (env : Env) (json : JSON) (mapper : AnnotationMapperService)
    (msg : FTMessage) (w : World) (k : string) :
  k ∈ ["X-Request-Id"; "Origin-System-Id"; "Content-Type"] →
  mapLookup w (Headers msg) k = None →
  let r := HandleMessage env json mapper msg w in
  mapIndex w (Headers msg) k = ""
  ∧ (k = "Origin-System-Id" →
       (whitelist mapper "" = false → r.1 = None ∧ sent r.2 = sent w)
       ∧ (whitelist mapper "" = true →
            (∀ err, Unmarshal json (Body msg) = inl err → r.1 = Some err)
            ∧ (∀ ev body,
                 Unmarshal json (Body msg) = inr ev →
                 Marshal json (envelopeOf mapper ev) = inr body →
                 sent r.2 = sent w ++ [outboundMessage w body])))
  ∧ (∀ message,
       sent r.2 = sent w ++ [message] →
       mapLookup r.2 (Headers message) k = Some "").
Proof.
  intros Hk Hmissing r.
  assert (Hempty : mapIndex w (Headers msg) k = "")
    by (unfold mapIndex; by rewrite Hmissing).
  split; [exact Hempty|]. split.
  - intros ->. subst r. split.
    + intros Hw. rewrite <- Hempty in Hw.
      by rewrite (HandleMessage_skip env json mapper msg w Hw).
    + intros Hw. rewrite <- Hempty in Hw. split.
      * intros err Hd.
        by rewrite (HandleMessage_decode_error env json mapper msg w err Hw Hd).
      * intros ev body Hd He.
        exact (proj1 (proj2 (HandleMessage_send env json mapper msg w ev body Hw Hd He))).
  - intros message Hsent. rewrite <- Hempty.
    by apply (HandleMessage_sent_headers env json mapper msg w message k).
Qed.

Lemma missing_headers_read_as_empty_witness :
  let msg := {| Headers := None; Body := Example.body |} in
  let anyOrigin := NewAnnotationMapperService (λ _, true) (λ _ _, None) in
  let r := HandleMessage Example.env encoding_json.codec anyOrigin msg Example.world in
  mapIndex Example.world None "Origin-System-Id" = ""
  ∧ ∃ message,
      sent r.2 = sent Example.world ++ [message]
      ∧ mapLookup r.2 (Headers message) "Origin-System-Id" = Some "".
Proof.
  intros msg anyOrigin r.
  assert (Hk : "Origin-System-Id" ∈ ["X-Request-Id"; "Origin-System-Id"; "Content-Type"])
    by (rewrite !elem_of_cons; auto).
  destruct (missing_headers_read_as_empty Example.env encoding_json.codec anyOrigin
              msg Example.world "Origin-System-Id" Hk eq_refl)
    as (Hempty & Hgate & Hcopied).
  split; [exact Hempty|].
  destruct (Hgate eq_refl) as [_ Hpass].
  destruct (Hpass eq_refl) as [_ Hsend].
  pose proof (Hsend Example.event
                (dq "{'uuid':'u1','annotations':[{'thing':{'id':'c1','predicate':'about'}}]}")
                eq_refl eq_refl) as Hsent.
  eexists. split; [exact Hsent|]. exact (Hcopied _ Hsent).
Defined.

(** * Further properties of the handler *)

(** ** The four outcomes of a run *)

Lemma HandleMessage_cases
    (env : Env) (json : JSON) (mapper : AnnotationMapperService)
    (msg : FTMessage) (w : World) :
  let r := HandleMessage env json mapper msg w in
  let passes := whitelist mapper (mapIndex w (Headers msg) "Origin-System-Id") in
  (passes = false ∧ r = (None, addLog [skipLine msg w] w))
  ∨ (passes = true
     ∧ ∃ err, Unmarshal json (Body msg) = inl err
              ∧ r = (Some err, addLog [decodeErrorLine msg w err] w))
  ∨ (passes = true
     ∧ ∃ ev err,
         Unmarshal json (Body msg) = inr ev
         ∧ Marshal json (envelopeOf mapper ev) = inl err
         ∧ r = (Some err,
                addLog (mappingLog mapper msg w ev ++ [encodeErrorLine msg w ev err]) w))
  ∨ (passes = true
     ∧ ∃ ev body,
         Unmarshal json (Body msg) = inr ev
         ∧ Marshal json (envelopeOf mapper ev) = inr body
         ∧ r = (messageProducer mapper (sendWorld env mapper msg w ev)
                  (outboundMessage w body),
                afterSend env mapper msg w ev body)).
Proof.
  intros r passes. subst r passes.
  destruct (whitelist mapper (mapIndex w (Headers msg) "Origin-System-Id")) eqn:Hw.
  - destruct (Unmarshal json (Body msg)) as [err|ev] eqn:Hd.
    + right; left. split; [done|]. exists err. split; [done|].
      exact (HandleMessage_decode_error env json mapper msg w err Hw Hd).
    + destruct (Marshal json (envelopeOf mapper ev)) as [err|body] eqn:He.
      * right; right; left. split; [done|]. exists ev, err. split; [done|].
        split; [done|].
        exact (HandleMessage_encode_error env json mapper msg w ev err Hw Hd He).
      * right; right; right. split; [done|]. exists ev, body. split; [done|].
        split; [done|].
        unfold HandleMessage.
        rewrite !bind_run. cbn [index fst snd]. rewrite Hw, Hd. cbn [negb].
        rewrite !bind_run. cbn [logLine fst snd].
        rewrite rangeAnnotations_run. cbn [fst snd app].
        unfold envelopeOf in He. rewrite He.
        rewrite !bind_run. rewrite buildConceptAnnotationsHeader_run.
        cbn [fst snd SendMessage].
        rewrite addLog_addLog. cbn [app].
        change (addLog _ w) with (addLog (mappingLog mapper msg w ev) w).
        change (afterHeaders env (Headers msg) (addLog (mappingLog mapper msg w ev) w))
          with (sendWorld env mapper msg w ev).
        change {| Headers := _; Body := body |} with (outboundMessage w body).
        unfold afterSend.
        destruct (messageProducer mapper (sendWorld env mapper msg w ev)
                    (outboundMessage w body));
          unfold mbind, M_bind, logLine, mret, M_ret, addLog, outcomeLine;
          cbn [fst snd heap uuids clock sent log afterHeaders sendWorld addLog];
          rewrite <- app_assoc; reflexivity.
  - left. split; [done|].
    exact (HandleMessage_skip env json mapper msg w Hw).
Qed.

Lemma sent_not_extended (l : list FTMessage) (m : FTMessage) : l ≠ l ++ [m].
Proof.
  intros Heq. apply (f_equal length) in Heq. rewrite length_app in Heq.
  simpl in Heq. lia.
Qed.

(** Anything that a run sends comes out of the last of the four outcomes. *)
Lemma HandleMessage_sent_inv
    (env : Env) (json : JSON) (mapper : AnnotationMapperService)
    (msg : FTMessage) (w : World) (message : FTMessage) :
  let r := HandleMessage env json mapper msg w in
  sent r.2 = sent w ++ [message] →
  whitelist mapper (mapIndex w (Headers msg) "Origin-System-Id") = true
  ∧ ∃ ev body,
      Unmarshal json (Body msg) = inr ev
      ∧ Marshal json (envelopeOf mapper ev) = inr body
      ∧ message = outboundMessage w body
      ∧ r = (messageProducer mapper (sendWorld env mapper msg w ev) message,
             afterSend env mapper msg w ev body).
Proof.
  intros r Hsent. subst r.
  destruct (HandleMessage_cases env json mapper msg w)
    as [[_ Hr]|[[_ (err & _ & Hr)]|[[_ (ev & err & _ & _ & Hr)]
       |[Hw (ev & body & Hd & He & Hr)]]]];
    rewrite Hr in Hsent; cbn [snd sent addLog afterSend] in Hsent;
    try (by apply sent_not_extended in Hsent).
  apply app_inj_tail in Hsent as [_ <-].
  split; [exact Hw|]. exists ev, body. by rewrite Hr.
Qed.

(** The map of a message that was sent, and the counters after the run. *)
Lemma HandleMessage_sent_map
    (env : Env) (json : JSON) (mapper : AnnotationMapperService)
    (msg : FTMessage) (w : World) (message : FTMessage) :
  let r := HandleMessage env json mapper msg w in
  sent r.2 = sent w ++ [message] →
  Headers message = Some (fresh (dom (heap w)))
  ∧ heap r.2 = <[fresh (dom (heap w)) := outboundHeaders env (Headers msg) w]> (heap w)
  ∧ uuids r.2 = S (uuids w)
  ∧ clock r.2 = S (clock w).
Proof.
  intros r Hsent.
  destruct (HandleMessage_sent_inv env json mapper msg w message Hsent)
    as (_ & ev & body & _ & _ & -> & Hr).
  subst r. rewrite Hr. repeat split.
Qed.

(** A run changes no map object that existed before it. *)
Lemma HandleMessage_frame
    (env : Env) (json : JSON) (mapper : AnnotationMapperService)
    (msg : FTMessage) (w : World) (l : nat) (content : gmap string string) :
  heap w !! l = Some content →
  heap (HandleMessage env json mapper msg w).2 !! l = Some content.
Proof.
  intros Hl.
  destruct (HandleMessage_cases env json mapper msg w)
    as [[_ Hr]|[[_ (err & _ & Hr)]|[[_ (ev & err & _ & _ & Hr)]
       |[_ (ev & body & _ & _ & Hr)]]]];
    rewrite Hr; cbn [snd heap addLog afterSend sendWorld afterHeaders]; try done.
  rewrite lookup_insert_ne; [done|].
  intros Heq. pose proof (is_fresh (dom (heap w))) as Hfresh.
  rewrite Heq in Hfresh. apply Hfresh. apply elem_of_dom. eauto.
Qed.

(** ** What is sent, and what is returned *)

(** X1: whatever the message, one run of the handler hands at most one
    message to the producer and leaves the earlier ones in place; it hands
    one over exactly when the origin is whitelisted, the body decodes and the
    envelope encodes, whatever the producer then answers. *)
Theorem one_message_exactly_when_encoded
    (env : Env) (json : JSON) (mapper : AnnotationMapperService)
    (msg : FTMessage) (w : World) :
  let r := HandleMessage env json mapper msg w in
  (sent r.2 = sent w ∨ ∃ message, sent r.2 = sent w ++ [message])
  ∧ ((∃ message, sent r.2 = sent w ++ [message])
     ↔ whitelist mapper (mapIndex w (Headers msg) "Origin-System-Id") = true
       ∧ ∃ ev body, Unmarshal json (Body msg) = inr ev
                    ∧ Marshal json (envelopeOf mapper ev) = inr body).
Proof.
  intros r. split; [|split].
  - destruct (HandleMessage_cases env json mapper msg w)
      as [[_ Hr]|[[_ (err & _ & Hr)]|[[_ (ev & err & _ & _ & Hr)]
         |[_ (ev & body & _ & _ & Hr)]]]];
      subst r; rewrite Hr; cbn [snd sent addLog afterSend]; eauto.
  - intros [message Hsent].
    destruct (HandleMessage_sent_inv env json mapper msg w message Hsent)
      as (Hw & ev & body & Hd & He & _).
    eauto.
  - intros (Hw & ev & body & Hd & He).
    exists (outboundMessage w body).
    exact (proj1 (proj2 (HandleMessage_send env json mapper msg w ev body Hw Hd He))).
Qed.

(** X2: an error that the handler returns is never of its own making: the
    origin was whitelisted, and the error is the decoder's, or the encoder's
    on the envelope of the decoded event, or the producer's answer to the
    message of this run. *)
Theorem returned_error_has_a_source
    (env : Env) (json : JSON) (mapper : AnnotationMapperService)
    (msg : FTMessage) (w : World) (e : error) :
  (HandleMessage env json mapper msg w).1 = Some e →
  whitelist mapper (mapIndex w (Headers msg) "Origin-System-Id") = true
  ∧ (Unmarshal json (Body msg) = inl e
     ∨ ∃ ev,
         Unmarshal json (Body msg) = inr ev
         ∧ (Marshal json (envelopeOf mapper ev) = inl e
            ∨ ∃ body,
                Marshal json (envelopeOf mapper ev) = inr body
                ∧ messageProducer mapper (sendWorld env mapper msg w ev)
                    (outboundMessage w body) = Some e)).
Proof.
  intros Hres.
  destruct (HandleMessage_cases env json mapper msg w)
    as [[_ Hr]|[[Hw (err & Hd & Hr)]|[[Hw (ev & err & Hd & He & Hr)]
       |[Hw (ev & body & Hd & He & Hr)]]]];
    rewrite Hr in Hres; cbn [fst] in Hres.
  - done.
  - injection Hres as ->. eauto.
  - injection Hres as ->. split; [done|]. right. eauto.
  - split; [done|]. right. exists ev. split; [done|]. right. eauto.
Qed.

Lemma returned_error_has_a_source_witness :
  whitelist Example.failing
    (mapIndex Example.world (Headers Example.msg) "Origin-System-Id") = true
  ∧ ∃ ev body,
      Unmarshal encoding_json.codec (Body Example.msg) = inr ev
      ∧ Marshal encoding_json.codec (envelopeOf Example.failing ev) = inr body
      ∧ messageProducer Example.failing
          (sendWorld Example.env Example.failing Example.msg Example.world ev)
          (outboundMessage Example.world body)
        = Some "kafka: broker not available".
Proof.
  destruct (returned_error_has_a_source Example.env encoding_json.codec Example.failing
              Example.msg Example.world "kafka: broker not available" eq_refl)
    as [Hw [Hd|(ev & Hd & [He|(body & He & Hs)])]].
  - vm_compute in Hd. discriminate Hd.
  - vm_compute in He. discriminate He.
  - split; [exact Hw|]. exists ev, body. split; [exact Hd|]. split; [exact He|exact Hs].
Defined.

(** X3: when the handler returns nil, either the origin was not whitelisted
    and nothing was sent, or the origin was whitelisted, exactly one message
    was handed to the producer and the producer accepted it. *)
Theorem nil_means_skipped_or_delivered
    (env : Env) (json : JSON) (mapper : AnnotationMapperService)
    (msg : FTMessage) (w : World) :
  let r := HandleMessage env json mapper msg w in
  r.1 = None →
  (whitelist mapper (mapIndex w (Headers msg) "Origin-System-Id") = false
   ∧ sent r.2 = sent w)
  ∨ (whitelist mapper (mapIndex w (Headers msg) "Origin-System-Id") = true
     ∧ ∃ ev message,
         Unmarshal json (Body msg) = inr ev
         ∧ sent r.2 = sent w ++ [message]
         ∧ messageProducer mapper (sendWorld env mapper msg w ev) message = None).
Proof.
  intros r Hres. subst r.
  destruct (HandleMessage_cases env json mapper msg w)
    as [[Hw Hr]|[[Hw (err & Hd & Hr)]|[[Hw (ev & err & Hd & He & Hr)]
       |[Hw (ev & body & Hd & He & Hr)]]]];
    rewrite Hr in Hres |- *; cbn [fst snd sent addLog afterSend] in Hres |- *;
    try done.
  - by left.
  - right. split; [done|]. exists ev, (outboundMessage w body). eauto.
Qed.

Lemma nil_means_skipped_or_delivered_witness :
  let r := HandleMessage Example.env encoding_json.codec Example.accepting
             Example.msg Example.world in
  ∃ ev message,
    Unmarshal encoding_json.codec (Body Example.msg) = inr ev
    ∧ sent r.2 = sent Example.world ++ [message]
    ∧ messageProducer Example.accepting
        (sendWorld Example.env Example.accepting Example.msg Example.world ev) message
      = None.
Proof.
  intros r.
  destruct (nil_means_skipped_or_delivered Example.env encoding_json.codec
              Example.accepting Example.msg Example.world eq_refl)
    as [[Hw _]|[_ H]].
  - vm_compute in Hw. discriminate Hw.
  - exact H.
Defined.

(** X4: a run that sends nothing leaves the map objects, the UUID generator
    and the clock as they were; a run that sends allocates exactly one map
    object, at an address that was free, for the headers of the message,
    draws one UUID and reads the clock once.  In both cases every map object
    that existed before (the inbound headers among them) is still what it
    was. *)
Theorem maps_and_counters_after_a_run
    (env : Env) (json : JSON) (mapper : AnnotationMapperService)
    (msg : FTMessage) (w : World) :
  let r := HandleMessage env json mapper msg w in
  (∀ l content, heap w !! l = Some content → heap r.2 !! l = Some content)
  ∧ (sent r.2 = sent w →
     heap r.2 = heap w ∧ uuids r.2 = uuids w ∧ clock r.2 = clock w)
  ∧ (∀ message,
       sent r.2 = sent w ++ [message] →
       ∃ l, Headers message = Some l
            ∧ heap w !! l = None
            ∧ dom (heap r.2) = {[l]} ∪ dom (heap w)
            ∧ uuids r.2 = S (uuids w)
            ∧ clock r.2 = S (clock w)).
Proof.
  intros r. split; [|split].
  - intros l content. apply HandleMessage_frame.
  - intros Hsame. subst r.
    destruct (HandleMessage_cases env json mapper msg w)
      as [[_ Hr]|[[_ (err & _ & Hr)]|[[_ (ev & err & _ & _ & Hr)]
         |[_ (ev & body & _ & _ & Hr)]]]];
      rewrite Hr in Hsame |- *; cbn [snd sent addLog afterSend] in Hsame |- *;
      try done.
    symmetry in Hsame. by apply sent_not_extended in Hsame.
  - intros message Hsent.
    destruct (HandleMessage_sent_map env json mapper msg w message Hsent)
      as (Hh & Hheap & Hu & Hc).
    exists (fresh (dom (heap w))). fold r in Hheap, Hu, Hc.
    split; [done|]. split; [apply not_elem_of_dom, is_fresh|].
    split; [by rewrite Hheap, dom_insert_L|]. done.
Qed.

(** ** The log *)

Lemma unmappedWarnings_tagged mapper requestLog values (entry : string * Field) :
  head requestLog = Some entry →
  Forall (λ line, head (fields line) = Some entry)
    (unmappedWarnings mapper requestLog values).
Proof.
  intros Hhead. unfold unmappedWarnings. apply Forall_fmap, Forall_forall.
  intros value _. cbn. unfold WithField.
  destruct requestLog as [|first rest]; [done|]. exact Hhead.
Qed.

Lemma unmappedWarnings_all_warn mapper requestLog values :
  filter (λ line, level line = WarnLevel) (unmappedWarnings mapper requestLog values)
  = unmappedWarnings mapper requestLog values.
Proof.
  unfold unmappedWarnings.
  induction (filter (λ value, buildAnnotation mapper value = None) values)
    as [|value rest IH]; [done|].
  cbn [fmap list_fmap]. rewrite filter_cons_True by done. f_equal. exact IH.
Qed.

(** X5: a run only adds to the log, it adds at least one line, and every
    line it adds has, as its first field, transaction_id with the value of
    the inbound X-Request-Id header (the empty string when there is none). *)
Theorem every_line_carries_the_transaction_id
    (env : Env) (json : JSON) (mapper : AnnotationMapperService)
    (msg : FTMessage) (w : World) :
  let r := HandleMessage env json mapper msg w in
  ∃ lines,
    log r.2 = log w ++ lines
    ∧ lines ≠ []
    ∧ Forall (λ line,
                head (fields line)
                = Some ("transaction_id",
                        StringField (mapIndex w (Headers msg) "X-Request-Id")))
        lines.
Proof.
  intros r. subst r.
  assert (Hmap : ∀ ev,
            Forall (λ line,
                      head (fields line)
                      = Some ("transaction_id",
                              StringField (mapIndex w (Headers msg) "X-Request-Id")))
              (mappingLog mapper msg w ev)).
  { intros ev. unfold mappingLog. apply Forall_cons. split; [done|].
    by apply unmappedWarnings_tagged. }
  destruct (HandleMessage_cases env json mapper msg w)
    as [[_ Hr]|[[_ (err & _ & Hr)]|[[_ (ev & err & _ & _ & Hr)]
       |[_ (ev & body & _ & _ & Hr)]]]];
    rewrite Hr; cbn [snd log addLog afterSend].
  - exists [skipLine msg w]. split; [done|]. split; [done|].
    by apply Forall_singleton.
  - exists [decodeErrorLine msg w err]. split; [done|]. split; [done|].
    by apply Forall_singleton.
  - exists (mappingLog mapper msg w ev ++ [encodeErrorLine msg w ev err]).
    split; [done|]. split; [by intros [? _]%app_eq_nil|].
    apply Forall_app. split; [apply Hmap|by apply Forall_singleton].
  - eexists. split; [reflexivity|]. split; [by intros [? _]%app_eq_nil|].
    apply Forall_app. split; [apply Hmap|by apply Forall_singleton].
Qed.

(** X6: once the origin is whitelisted and the body decoded, the warnings of
    the run are one per raw annotation whose predicate the table does not
    hold, in the order of the input, each with the transaction id, the UUID of
    the event and the raw annotation itself under metadata; this holds
    whether the run then fails to encode, fails to send or succeeds. *)
Theorem one_warning_per_unmapped_annotation
    (env : Env) (json : JSON) (mapper : AnnotationMapperService)
    (msg : FTMessage) (w : World) (ev : PacMetadataPublishEvent) :
  whitelist mapper (mapIndex w (Headers msg) "Origin-System-Id") = true →
  Unmarshal json (Body msg) = inr ev →
  let r := HandleMessage env json mapper msg w in
  let warning (a : PacMetadataAnnotation) : LogLine :=
    {| level := WarnLevel;
       fields :=
         [("transaction_id", StringField (mapIndex w (Headers msg) "X-Request-Id"));
          ("uuid", StringField (Event.UUID ev));
          ("metadata", MetadataField a)];
       message := "metadata for an unsupported predicate was not mapped" |} in
  ∃ lines,
    log r.2 = log w ++ lines
    ∧ filter (λ line, level line = WarnLevel) lines
      = warning <$> filter (λ a, predicates !! Event.Predicate a = None)
                      (elems (Event.Annotations ev)).
Proof.
  intros Hw Hd r warning. subst r.
  assert (Hwarn : ∀ last,
            level last ≠ WarnLevel →
            filter (λ line, level line = WarnLevel)
              (mappingLog mapper msg w ev ++ [last])
            = warning <$> filter (λ a, predicates !! Event.Predicate a = None)
                            (elems (Event.Annotations ev))).
  { intros last Hlast. rewrite filter_app.
    rewrite (filter_cons_False _ last) by done.
    rewrite filter_nil, app_nil_r. unfold mappingLog.
    rewrite filter_cons_False by done.
    rewrite unmappedWarnings_all_warn. unfold unmappedWarnings.
    f_equal. apply list_filter_iff. intros a. symmetry. apply buildAnnotation_None. }
  destruct (HandleMessage_cases env json mapper msg w)
    as [[Hw' _]|[[_ (err & Hd' & _)]|[[_ (ev' & err & Hd' & _ & Hr)]
       |[_ (ev' & body & Hd' & _ & Hr)]]]];
    try congruence;
    assert (ev' = ev) as -> by congruence;
    rewrite Hr; cbn [snd log addLog afterSend];
    eexists; (split; [reflexivity|]); apply Hwarn.
  - done.
  - unfold outcomeLine. by destruct (messageProducer _ _ _).
Qed.

Lemma one_warning_per_unmapped_annotation_witness :
  let r := HandleMessage Example.env encoding_json.codec Example.accepting
             Example.msg Example.world in
  ∃ lines,
    log r.2 = log Example.world ++ lines
    ∧ filter (λ line, level line = WarnLevel) lines
      = [{| level := WarnLevel;
            fields := [("transaction_id", StringField "tid_0123");
                       ("uuid", StringField "u1");
                       ("metadata", MetadataField Example.unknown)];
            message := "metadata for an unsupported predicate was not mapped" |}].
Proof.
  exact (one_warning_per_unmapped_annotation Example.env encoding_json.codec
           Example.accepting Example.msg Example.world Example.event eq_refl eq_refl).
Defined.

(** ** The headers of a message that was sent *)

(** X7: only whitelisted origins are forwarded: the Origin-System-Id header
    of a message that the handler hands to the producer is the inbound one,
    and it matches the whitelist. *)
Theorem forwarded_origin_is_whitelisted
    (env : Env) (json : JSON) (mapper : AnnotationMapperService)
    (msg : FTMessage) (w : World) (message : FTMessage) :
  let r := HandleMessage env json mapper msg w in
  sent r.2 = sent w ++ [message] →
  ∃ origin,
    mapLookup r.2 (Headers message) "Origin-System-Id" = Some origin
    ∧ origin = mapIndex w (Headers msg) "Origin-System-Id"
    ∧ whitelist mapper origin = true.
Proof.
  intros r Hsent.
  exists (mapIndex w (Headers msg) "Origin-System-Id").
  split; [|split; [done|]].
  - apply (HandleMessage_sent_headers env json mapper msg w message); [done|].
    rewrite !elem_of_cons. auto.
  - exact (proj1 (HandleMessage_sent_inv env json mapper msg w message Hsent)).
Qed.

Lemma forwarded_origin_is_whitelisted_witness :
  let r := HandleMessage Example.env encoding_json.codec Example.accepting
             Example.msg Example.world in
  ∃ origin,
    mapLookup r.2 (Some (fresh (dom (heap Example.world)))) "Origin-System-Id"
    = Some origin
    ∧ origin = "http://cmdb.ft.com/systems/pac"
    ∧ Example.pacOnly origin = true.
Proof.
  exact (forwarded_origin_is_whitelisted Example.env encoding_json.codec
           Example.accepting Example.msg Example.world
           (outboundMessage Example.world
              (dq "{'uuid':'u1','annotations':[{'thing':{'id':'c1','predicate':'about'}}]}"))
           eq_refl).
Defined.

(** X8: the header map of a message that the handler sends has the six
    outbound keys and no other, whatever the inbound map holds: Message-Id is
    the UUID that the generator gives at the start of the run (an inbound
    Message-Id is not forwarded), Message-Type the constant, X-Request-Id and
    Content-Type the inbound values, Message-Timestamp the reading of the
    clock.  Logging and mapping in between do not change any of it. *)
Theorem sent_headers_are_the_six
    (env : Env) (json : JSON) (mapper : AnnotationMapperService)
    (msg : FTMessage) (w : World) (message : FTMessage) :
  let r := HandleMessage env json mapper msg w in
  sent r.2 = sent w ++ [message] →
  ∃ l out,
    Headers message = Some l
    ∧ heap r.2 !! l = Some out
    ∧ dom out = outboundKeys
    ∧ out !! "Message-Id" = Some (NewV4 env (uuids w))
    ∧ out !! "Message-Type" = Some "concept-annotation"
    ∧ out !! "X-Request-Id" = Some (mapIndex w (Headers msg) "X-Request-Id")
    ∧ out !! "Content-Type" = Some (mapIndex w (Headers msg) "Content-Type")
    ∧ out !! "Message-Timestamp"
      = Some (Format (Now env (clock w)) messageTimestampDateFormat).
Proof.
  intros r Hsent.
  destruct (HandleMessage_sent_map env json mapper msg w message Hsent)
    as (Hh & Hheap & _).
  exists (fresh (dom (heap w))), (outboundHeaders env (Headers msg) w).
  fold r in Hheap. split; [done|].
  split; [rewrite Hheap; apply lookup_insert_eq|].
  split; [apply outboundHeaders_dom|].
  repeat split.
Qed.

Lemma sent_headers_are_the_six_witness :
  let r := HandleMessage Example.env encoding_json.codec Example.accepting
             Example.msg Example.world in
  ∃ l out,
    Some (fresh (dom (heap Example.world))) = Some l
    ∧ heap r.2 !! l = Some out
    ∧ dom out = outboundKeys
    ∧ out !! "Message-Id" = Some "5f0f4a3e-8a2c-4b6d-9e3f-000000000000"
    ∧ out !! "Message-Type" = Some "concept-annotation"
    ∧ out !! "X-Request-Id" = Some "tid_0123"
    ∧ out !! "Content-Type" = Some "application/json"
    ∧ out !! "Message-Timestamp" = Some "2018-03-09T14:05:07.042Z".
Proof.
  exact (sent_headers_are_the_six Example.env encoding_json.codec
           Example.accepting Example.msg Example.world
           (outboundMessage Example.world
              (dq "{'uuid':'u1','annotations':[{'thing':{'id':'c1','predicate':'about'}}]}"))
           eq_refl).
Defined.

(** ** Events of which nothing is mapped *)

(** X9: past the whitelist, an event all of whose annotations have predicates
    outside the table is not suppressed: the envelope has the UUID of the
    event and an empty, non-nil list, which [encoding/json] writes
    ["annotations":[]] however it writes the UUID, the producer is called
    once on it, and there is one warning for each annotation of the event. *)
Theorem all_unmapped_still_sent
    (env : Env) (unmarshal : string → error + PacMetadataPublishEvent)
    (mapper : AnnotationMapperService)
    (msg : FTMessage) (w : World) (ev : PacMetadataPublishEvent) :
  whitelist mapper (mapIndex w (Headers msg) "Origin-System-Id") = true →
  unmarshal (Body msg) = inr ev →
  Forall (λ a, predicates !! Event.Predicate a = None) (elems (Event.Annotations ev)) →
  (∀ marshal body,
     marshal {| Concept.UUID := Event.UUID ev; Concept.Annotations := Some [] |}
     = inr body →
     let r := HandleMessage env {| Unmarshal := unmarshal; Marshal := marshal |}
                mapper msg w in
     sent r.2 = sent w ++ [outboundMessage w body])
  ∧ ∀ quoteString : string → string,
      let r := HandleMessage env
                 {| Unmarshal := unmarshal;
                    Marshal := encoding_json.marshalWith quoteString |}
                 mapper msg w in
      sent r.2
      = sent w ++ [outboundMessage w
                     (dq "{'uuid':" +:+ quoteString (Event.UUID ev)
                      +:+ dq ",'annotations':[]}")]
      ∧ ∃ lines,
          log r.2 = log w ++ lines
          ∧ length (filter (λ line, level line = WarnLevel) lines)
            = length (elems (Event.Annotations ev)).
Proof.
  intros Hw Hd Hall.
  assert (Hnone : omap (buildAnnotation mapper) (elems (Event.Annotations ev)) = []).
  { induction Hall as [|a rest Ha _ IH]; [done|].
    cbn [omap list_omap]. apply (buildAnnotation_None mapper) in Ha.
    by rewrite Ha. }
  assert (Henv : envelopeOf mapper ev
                 = {| Concept.UUID := Event.UUID ev; Concept.Annotations := Some [] |})
    by (unfold envelopeOf; by rewrite Hnone).
  split.
  - intros marshal body He r. subst r.
    refine (proj1 (proj2 (HandleMessage_send env
              {| Unmarshal := unmarshal; Marshal := marshal |}
              mapper msg w ev body Hw Hd _))).
    cbn [Marshal]. by rewrite Henv.
  - intros quoteString r. subst r.
    set (json := {| Unmarshal := unmarshal;
                    Marshal := encoding_json.marshalWith quoteString |}).
    split.
    + refine (proj1 (proj2 (HandleMessage_send env json mapper msg w ev _ Hw Hd _))).
      subst json. cbn [Marshal]. by rewrite Henv.
    + destruct (HandleMessage_cases env json mapper msg w)
        as [[Hw' _]|[[_ (err & Hd' & _)]|[[_ (ev' & err & _ & He & _)]
           |[_ (ev' & body & Hd' & _ & Hr)]]]].
      * congruence.
      * subst json. cbn [Unmarshal] in Hd'. congruence.
      * subst json. cbn [Marshal] in He. discriminate He.
      * subst json. cbn [Unmarshal] in Hd'. assert (ev' = ev) as -> by congruence.
        rewrite Hr. cbn [snd log afterSend]. eexists. split; [reflexivity|].
        rewrite filter_app. unfold mappingLog.
        rewrite filter_cons_False by done.
        rewrite unmappedWarnings_all_warn.
        rewrite (filter_cons_False _ (outcomeLine _ _ _ _))
          by (unfold outcomeLine; by destruct (messageProducer _ _ _)).
        rewrite filter_nil, app_nil_r. unfold unmappedWarnings.
        rewrite length_fmap.
        pose proof (length_omap_filter (buildAnnotation mapper)
                      (elems (Event.Annotations ev))) as Hlen.
        rewrite Hnone in Hlen. exact Hlen.
Qed.

Lemma all_unmapped_still_sent_witness :
  let msg :=
    {| Headers := Some 0%nat;
       Body := dq "{'uuid':'u7','annotations':[{'conceptId':'c2','predicate':'http://unknown/x'}]}" |} in
  let r := HandleMessage Example.env encoding_json.codec Example.accepting msg
             Example.world in
  sent r.2
  = sent Example.world
    ++ [outboundMessage Example.world (dq "{'uuid':'u7','annotations':[]}")]
  ∧ ∃ lines,
      log r.2 = log Example.world ++ lines
      ∧ length (filter (λ line, level line = WarnLevel) lines) = 1.
Proof.
  intros msg r.
  assert (Hall : Forall (λ a, predicates !! Event.Predicate a = None) [Example.unknown])
    by (apply Forall_singleton; vm_compute; reflexivity).
  exact (proj2 (all_unmapped_still_sent Example.env encoding_json.Unmarshal
                  Example.accepting msg Example.world
                  {| Event.UUID := "u7"; Event.Annotations := Some [Example.unknown] |}
                  eq_refl eq_refl Hall) encoding_json.encodeString).
Defined.

(** ** The body, and runs in sequence *)

(** X10: the body that is sent depends on the inbound body alone: two runs
    on messages with the same body, with the same codec but with any headers,
    services, generators, clocks and earlier history, send the same body if
    they both send one. *)
Theorem outbound_body_depends_on_inbound_body_only
    (env1 env2 : Env) (json : JSON) (mapper1 mapper2 : AnnotationMapperService)
    (msg1 msg2 : FTMessage) (w1 w2 : World) (m1 m2 : FTMessage) :
  Body msg1 = Body msg2 →
  sent (HandleMessage env1 json mapper1 msg1 w1).2 = sent w1 ++ [m1] →
  sent (HandleMessage env2 json mapper2 msg2 w2).2 = sent w2 ++ [m2] →
  Body m1 = Body m2.
Proof.
  intros Hbody Hs1 Hs2.
  destruct (HandleMessage_sent_inv env1 json mapper1 msg1 w1 m1 Hs1)
    as (_ & ev1 & body1 & Hd1 & He1 & -> & _).
  destruct (HandleMessage_sent_inv env2 json mapper2 msg2 w2 m2 Hs2)
    as (_ & ev2 & body2 & Hd2 & He2 & -> & _).
  rewrite Hbody in Hd1. assert (ev1 = ev2) as -> by congruence.
  change (envelopeOf mapper1 ev2) with (envelopeOf mapper2 ev2) in He1.
  cbn [outboundMessage Body]. congruence.
Qed.

Lemma outbound_body_depends_on_inbound_body_only_witness :
  let anyOrigin := NewAnnotationMapperService (λ _, true) (λ _ _, Some "timeout") in
  let bare := {| Headers := None; Body := Example.body |} in
  let later :=
    (HandleMessage Example.env encoding_json.codec Example.accepting
       Example.msg Example.world).2 in
  ∃ m1 m2,
    sent (HandleMessage Example.env encoding_json.codec Example.accepting
            Example.msg Example.world).2 = sent Example.world ++ [m1]
    ∧ sent (HandleMessage Example.env encoding_json.codec anyOrigin bare later).2
      = sent later ++ [m2]
    ∧ Headers m1 ≠ Headers m2
    ∧ Body m1 = Body m2.
Proof.
  intros anyOrigin bare later.
  pose (body := dq "{'uuid':'u1','annotations':[{'thing':{'id':'c1','predicate':'about'}}]}").
  exists (outboundMessage Example.world body), (outboundMessage later body).
  split; [reflexivity|]. split; [reflexivity|].
  split; [vm_compute; intros H; discriminate H|].
  exact (outbound_body_depends_on_inbound_body_only
           Example.env Example.env encoding_json.codec Example.accepting anyOrigin
           Example.msg bare Example.world later
           (outboundMessage Example.world body) (outboundMessage later body)
           eq_refl eq_refl eq_refl).
Defined.

(** X11: two runs in a row that both send leave both messages with the
    producer, in the order of the runs, with header maps that are two
    different objects; the second run does not touch the headers of the first
    message, and the two Message-Ids are two consecutive UUIDs of the
    generator. *)
Theorem consecutive_runs_do_not_share_headers
    (env : Env) (json : JSON) (mapper : AnnotationMapperService)
    (msg1 msg2 : FTMessage) (w : World) (m1 m2 : FTMessage) :
  let r1 := HandleMessage env json mapper msg1 w in
  let r2 := HandleMessage env json mapper msg2 r1.2 in
  sent r1.2 = sent w ++ [m1] →
  sent r2.2 = sent r1.2 ++ [m2] →
  sent r2.2 = sent w ++ [m1; m2]
  ∧ Headers m1 ≠ Headers m2
  ∧ (∀ k, mapLookup r2.2 (Headers m1) k = mapLookup r1.2 (Headers m1) k)
  ∧ mapLookup r2.2 (Headers m1) "Message-Id" = Some (NewV4 env (uuids w))
  ∧ mapLookup r2.2 (Headers m2) "Message-Id" = Some (NewV4 env (S (uuids w))).
Proof.
  intros r1 r2 Hs1 Hs2.
  destruct (HandleMessage_sent_map env json mapper msg1 w m1 Hs1)
    as (Hh1 & Hheap1 & Hu1 & _).
  destruct (HandleMessage_sent_map env json mapper msg2 r1.2 m2 Hs2)
    as (Hh2 & Hheap2 & _).
  fold r1 in Hheap1, Hu1, Hh2, Hheap2. fold r2 in Hheap2.
  set (l1 := fresh (dom (heap w))) in *.
  set (l2 := fresh (dom (heap r1.2))) in *.
  assert (Hl1 : heap r1.2 !! l1 = Some (outboundHeaders env (Headers msg1) w))
    by (rewrite Hheap1; apply lookup_insert_eq).
  assert (Hne : l1 ≠ l2).
  { intros Heq. pose proof (is_fresh (dom (heap r1.2))) as Hfresh.
    fold l2 in Hfresh. rewrite <- Heq in Hfresh. apply Hfresh.
    apply elem_of_dom. eauto. }
  assert (Hkeep : heap r2.2 !! l1 = heap r1.2 !! l1)
    by (rewrite Hheap2; by apply lookup_insert_ne).
  split; [rewrite Hs2, Hs1, <- app_assoc; reflexivity|].
  split; [rewrite Hh1, Hh2; congruence|].
  split; [intros k; unfold mapLookup; rewrite Hh1; cbn; by rewrite Hkeep|].
  split.
  - unfold mapLookup. rewrite Hh1. cbn. rewrite Hkeep, Hl1. reflexivity.
  - unfold mapLookup. rewrite Hh2. cbn. rewrite Hheap2, lookup_insert_eq. cbn.
    rewrite Hu1. reflexivity.
Qed.

Lemma consecutive_runs_do_not_share_headers_witness :
  let r1 := HandleMessage Example.env encoding_json.codec Example.accepting
              Example.msg Example.world in
  let r2 := HandleMessage Example.env encoding_json.codec Example.accepting
              Example.msg r1.2 in
  ∃ m1 m2,
    sent r2.2 = sent Example.world ++ [m1; m2]
    ∧ Headers m1 ≠ Headers m2
    ∧ mapLookup r2.2 (Headers m1) "Message-Id"
      = Some "5f0f4a3e-8a2c-4b6d-9e3f-000000000000"
    ∧ mapLookup r2.2 (Headers m2) "Message-Id"
      = Some "5f0f4a3e-8a2c-4b6d-9e3f-000000000001".
Proof.
  intros r1 r2.
  pose (body := dq "{'uuid':'u1','annotations':[{'thing':{'id':'c1','predicate':'about'}}]}").
  destruct (consecutive_runs_do_not_share_headers Example.env encoding_json.codec
              Example.accepting Example.msg Example.msg Example.world
              (outboundMessage Example.world body) (outboundMessage r1.2 body)
              eq_refl eq_refl)
    as (Hsent & Hne & _ & Hid1 & Hid2).
  exists (outboundMessage Example.world body), (outboundMessage r1.2 body).
  split; [exact Hsent|]. split; [exact Hne|]. split; [exact Hid1|exact Hid2].
Defined.

(** ** buildAnnotation *)

(** X12: an annotation that [buildAnnotation] returns has the concept id of
    the raw annotation, and its predicate is the predicate URI of the raw
    annotation without its namespace, which is one of the two ontology
    namespaces of the table; the outbound predicate is one of the six short
    names and never a URI. *)
Theorem short_name_is_the_uri_without_namespace
    (mapper : AnnotationMapperService) (a : PacMetadataAnnotation) (out : annotation) :
  buildAnnotation mapper a = Some out →
  Concept.ID (Concept.Thing out) = Event.ConceptId a
  ∧ (∃ ns,
       ns ∈ ["http://www.ft.com/ontology/classification/";
             "http://www.ft.com/ontology/annotation/"]
       ∧ Event.Predicate a = ns +:+ Concept.Predicate (Concept.Thing out))
  ∧ Concept.Predicate (Concept.Thing out)
    ∈ ["isClassifiedBy"; "hasAuthor"; "hasContributor"; "about"; "hasDisplayTag";
       "mentions"].
Proof.
  unfold buildAnnotation.
  destruct (predicates !! Event.Predicate a) as [short|] eqn:Hp; [|done].
  intros [= <-]. cbn [Concept.Thing Concept.ID Concept.Predicate].
  split; [done|].
  apply predicates_elem_of in Hp.
  rewrite !elem_of_cons, elem_of_nil in Hp.
  destruct Hp as [Hp|[Hp|[Hp|[Hp|[Hp|[Hp|[]]]]]]];
    injection Hp as -> ->;
    (split;
     [first [ exists "http://www.ft.com/ontology/classification/";
              split; [rewrite !elem_of_cons; auto|reflexivity]
            | exists "http://www.ft.com/ontology/annotation/";
              split; [rewrite !elem_of_cons; auto|reflexivity] ]
     | rewrite !elem_of_cons; auto 10 ]).
Qed.

Lemma short_name_is_the_uri_without_namespace_witness :
  (∃ ns,
     ns ∈ ["http://www.ft.com/ontology/classification/";
           "http://www.ft.com/ontology/annotation/"]
     ∧ "http://www.ft.com/ontology/annotation/about" = ns +:+ "about")
  ∧ "about" ∈ ["isClassifiedBy"; "hasAuthor"; "hasContributor"; "about";
               "hasDisplayTag"; "mentions"].
Proof.
  exact (proj2 (short_name_is_the_uri_without_namespace Example.accepting Example.about
                  {| Concept.Thing := {| Concept.ID := "c1"; Concept.Predicate := "about" |} |}
                  eq_refl)).
Defined.

(** X13: on events whose annotations all have predicates of the table, the
    mapping loses nothing: two such events with the same envelope have the
    same UUID and the same annotations, in the same order. *)
Theorem supported_events_can_be_read_back
    (mapper : AnnotationMapperService) (ev1 ev2 : PacMetadataPublishEvent) :
  Forall (λ a, is_Some (predicates !! Event.Predicate a)) (elems (Event.Annotations ev1)) →
  Forall (λ a, is_Some (predicates !! Event.Predicate a)) (elems (Event.Annotations ev2)) →
  envelopeOf mapper ev1 = envelopeOf mapper ev2 →
  Event.UUID ev1 = Event.UUID ev2
  ∧ elems (Event.Annotations ev1) = elems (Event.Annotations ev2).
Proof.
  intros H1 H2 Henv. unfold envelopeOf in Henv. injection Henv as Huuid Hanns.
  split; [exact Huuid|].
  assert (Hsome : ∀ a, is_Some (predicates !! Event.Predicate a) →
                       is_Some (buildAnnotation mapper a)).
  { intros a [short Hs]. rewrite (buildAnnotation_Some mapper a short Hs). eauto. }
  generalize dependent (elems (Event.Annotations ev2)).
  induction H1 as [|a l1 Ha _ IH]; intros l2 H2 Hanns.
  - destruct H2 as [|b l2 Hb _]; [done|].
    destruct (Hsome b Hb) as [y Hy]. cbn [omap list_omap] in Hanns.
    rewrite Hy in Hanns. discriminate Hanns.
  - destruct (Hsome a Ha) as [x Hx].
    destruct H2 as [|b l2 Hb H2].
    + cbn [omap list_omap] in Hanns. rewrite Hx in Hanns. discriminate Hanns.
    + destruct (Hsome b Hb) as [y Hy]. cbn [omap list_omap] in Hanns.
      rewrite Hx, Hy in Hanns. injection Hanns as -> Hrest.
      f_equal; [exact (buildAnnotation_inj mapper a b y Hx Hy)|].
      by apply IH.
Qed.

Lemma supported_events_can_be_read_back_witness :
  let ev := {| Event.UUID := "u1"; Event.Annotations := Some [Example.about] |} in
  let ev' := {| Event.UUID := "u1"; Event.Annotations := Some [Example.about] |} in
  Event.UUID ev = Event.UUID ev'
  ∧ elems (Event.Annotations ev) = elems (Event.Annotations ev').
Proof.
  intros ev ev'.
  assert (Hall : Forall (λ a, is_Some (predicates !! Event.Predicate a)) [Example.about])
    by (apply Forall_singleton; vm_compute; eauto).
  exact (supported_events_can_be_read_back Example.accepting ev ev' Hall Hall eq_refl).
Defined.

(** ** Timestamps as strings *)

Lemma Format_fields (t : Time) :
  Format t messageTimestampDateFormat
  = appendInt (year t) 4
    +:+ String "-" (appendInt (month t) 2
    +:+ String "-" (appendInt (day t) 2
    +:+ String "T" (appendInt (hour t) 2
    +:+ String ":" (appendInt (minute t) 2
    +:+ String ":" (appendInt (second t) 2
    +:+ String "." (appendInt (nanosecond t / 1000000) 3
    +:+ String "Z" EmptyString)))))).
Proof. reflexivity. Qed.

Lemma allDigits_length (n : nat) (s : string) :
  allDigits n s = true → String.length s = n.
Proof.
  revert s. induction n as [|n IH]; intros [|c s]; cbn [allDigits]; try done.
  intros [_ Hs]%andb_prop. cbn. by rewrite (IH s Hs).
Qed.

Lemma digitsValue_range (n : nat) (s : string) :
  allDigits n s = true → (0 <= digitsValue s < 10 ^ Z.of_nat n)%Z.
Proof.
  revert s. induction n as [|n IH]; intros [|c s]; cbn [allDigits]; try done.
  intros [Hc Hs]%andb_prop. pose proof (IH s Hs) as Hrange.
  cbn [digitsValue]. rewrite (allDigits_length n s Hs).
  unfold encoding_json.isDigitChar in Hc. apply andb_prop in Hc as [Hlo Hhi].
  apply Nat.leb_le in Hlo, Hhi.
  rewrite Nat2Z.inj_succ, Z.pow_succ_r by lia.
  assert (0 <= Z.of_nat (nat_of_ascii c) - 48 <= 9)%Z as Hd by lia.
  set (d := (Z.of_nat (nat_of_ascii c) - 48)%Z) in *.
  set (P := (10 ^ Z.of_nat n)%Z) in *.
  nia.
Qed.

Lemma Ascii_compare_value (c1 c2 : ascii) :
  Ascii.compare c1 c2
  = (Z.of_nat (nat_of_ascii c1) - 48 ?= Z.of_nat (nat_of_ascii c2) - 48)%Z.
Proof.
  unfold Ascii.compare, nat_of_ascii. rewrite !N_nat_Z.
  destruct (N.compare_spec (N_of_ascii c1) (N_of_ascii c2));
    symmetry; [apply Z.compare_eq_iff|apply Z.compare_lt_iff|apply Z.compare_gt_iff];
    lia.
Qed.

(** Runs of digits of one length compare as the numbers they write. *)
Lemma compare_digits (n : nat) (s1 s2 : string) :
  allDigits n s1 = true → allDigits n s2 = true →
  String.compare s1 s2 = (digitsValue s1 ?= digitsValue s2)%Z.
Proof.
  revert s1 s2. induction n as [|n IH]; intros [|c1 s1] [|c2 s2];
    cbn [allDigits]; try done.
  intros [_ H1]%andb_prop [_ H2]%andb_prop.
  cbn [String.compare digitsValue].
  rewrite (allDigits_length n s1 H1), (allDigits_length n s2 H2).
  pose proof (digitsValue_range n s1 H1) as R1.
  pose proof (digitsValue_range n s2 H2) as R2.
  rewrite Ascii_compare_value, (IH s1 s2 H1 H2).
  set (d1 := (Z.of_nat (nat_of_ascii c1) - 48)%Z).
  set (d2 := (Z.of_nat (nat_of_ascii c2) - 48)%Z).
  set (P := (10 ^ Z.of_nat n)%Z) in *.
  destruct (Z.compare_spec d1 d2) as [->|Hlt|Hgt].
  - symmetry. apply Z.add_compare_mono_l.
  - symmetry. apply Z.compare_lt_iff. nia.
  - symmetry. apply Z.compare_gt_iff. nia.
Qed.

Lemma digitsValue_appendInt (width : nat) (x : Z) :
  (width = 2 ∨ width = 3 ∨ width = 4)%nat →
  (0 <= x < 10 ^ Z.of_nat width)%Z →
  digitsValue (appendInt x width) = x.
Proof.
  intros Hwidth Hx.
  assert (Hall : forallb (λ i, (digitsValue (appendInt (Z.of_nat i) width)
                                =? Z.of_nat i)%Z)
                   (seq 0 (10 ^ width)) = true).
  { destruct Hwidth as [->|[->| ->]]; vm_compute; reflexivity. }
  rewrite forallb_forall in Hall.
  specialize (Hall (Z.to_nat x)). rewrite Z2Nat.id in Hall by lia.
  apply Z.eqb_eq, Hall, in_seq.
  assert (Z.to_nat x < Z.to_nat (10 ^ Z.of_nat width))%nat by (apply Z2Nat.inj_lt; lia).
  assert (Z.to_nat (10 ^ Z.of_nat width) = (10 ^ width)%nat) as Hpow.
  { destruct Hwidth as [->|[->| ->]]; reflexivity. }
  lia.
Qed.

(** Two texts that start with fields of one length and the same separator
    compare by the fields first. *)
Lemma compare_field (sep : ascii) (a1 a2 r1 r2 : string) :
  String.length a1 = String.length a2 →
  String.compare (a1 +:+ String sep r1) (a2 +:+ String sep r2)
  = match String.compare a1 a2 with
    | Eq => String.compare r1 r2
    | c => c
    end.
Proof.
  revert a2. induction a1 as [|c1 a1 IH]; intros [|c2 a2]; cbn [String.length];
    try done.
  - intros _. change (String.compare (String sep r1) (String sep r2)
                       = String.compare r1 r2).
    cbn [String.compare]. unfold Ascii.compare. by rewrite N.compare_refl.
  - intros [= Hlen].
    change (String.compare (String c1 (a1 +:+ String sep r1))
              (String c2 (a2 +:+ String sep r2))
            = match String.compare (String c1 a1) (String c2 a2) with
              | Eq => String.compare r1 r2
              | c => c
              end).
    cbn [String.compare].
    destruct (Ascii.compare c1 c2); [by apply IH|done|done].
Qed.

Lemma field_inj (sep : ascii) (a1 a2 r1 r2 : string) :
  String.length a1 = String.length a2 →
  a1 +:+ String sep r1 = a2 +:+ String sep r2 →
  a1 = a2 ∧ r1 = r2.
Proof.
  revert a2. induction a1 as [|c1 a1 IH]; intros [|c2 a2]; cbn [String.length];
    try done.
  - intros _ Heq. change (String sep r1 = String sep r2) in Heq.
    by injection Heq as ->.
  - intros [= Hlen] Heq.
    change (String c1 (a1 +:+ String sep r1) = String c2 (a2 +:+ String sep r2)) in Heq.
    injection Heq as -> Hrest.
    destruct (IH a2 Hlen Hrest) as [-> ->]. done.
Qed.

(** The seven printed fields of a valid reading, as fields of digits. *)
Lemma printed_fields_digits (t : Time) :
  validTime t →
  allDigits 4 (appendInt (year t) 4) = true
  ∧ allDigits 2 (appendInt (month t) 2) = true
  ∧ allDigits 2 (appendInt (day t) 2) = true
  ∧ allDigits 2 (appendInt (hour t) 2) = true
  ∧ allDigits 2 (appendInt (minute t) 2) = true
  ∧ allDigits 2 (appendInt (second t) 2) = true
  ∧ allDigits 3 (appendInt (nanosecond t / 1000000) 3) = true
  ∧ digitsValue (appendInt (year t) 4) = year t
  ∧ digitsValue (appendInt (month t) 2) = month t
  ∧ digitsValue (appendInt (day t) 2) = day t
  ∧ digitsValue (appendInt (hour t) 2) = hour t
  ∧ digitsValue (appendInt (minute t) 2) = minute t
  ∧ digitsValue (appendInt (second t) 2) = second t
  ∧ digitsValue (appendInt (nanosecond t / 1000000) 3) = (nanosecond t / 1000000)%Z.
Proof.
  intros (Hy & Hmo & Hd & Hh & Hmi & Hs & Hn).
  assert (0 <= nanosecond t / 1000000 < 10 ^ Z.of_nat 3)%Z
    by (split; [apply Z.div_pos; lia | apply Z.div_lt_upper_bound; simpl; lia]).
  repeat split;
    first [ apply appendInt_allDigits | apply digitsValue_appendInt ];
    auto; simpl; lia.
Qed.

Ltac same_length :=
  match goal with
  | H1 : allDigits ?n ?a = true, H2 : allDigits ?n ?b = true
    |- String.length ?a = String.length ?b =>
      rewrite (allDigits_length n a H1), (allDigits_length n b H2); reflexivity
  end.

(** X14: for readings of the clock with valid fields, the timestamps that the
    layout of the package gives compare, byte by byte as strings, exactly as
    the readings compare by year, month, day, hour, minute, second and
    millisecond: sorting the texts sorts the readings. *)
Theorem timestamps_sort_as_readings (t1 t2 : Time) :
  validTime t1 → validTime t2 →
  String.compare (Format t1 messageTimestampDateFormat)
    (Format t2 messageTimestampDateFormat)
  = lexCompare (printedFields t1) (printedFields t2).
Proof.
  intros V1 V2.
  destruct (printed_fields_digits t1 V1)
    as (Y1 & Mo1 & D1 & H1 & Mi1 & S1 & N1 & Yv1 & Mov1 & Dv1 & Hv1 & Miv1 & Sv1 & Nv1).
  destruct (printed_fields_digits t2 V2)
    as (Y2 & Mo2 & D2 & H2 & Mi2 & S2 & N2 & Yv2 & Mov2 & Dv2 & Hv2 & Miv2 & Sv2 & Nv2).
  rewrite !Format_fields.
  rewrite (compare_field "-" (appendInt (year t1) 4) (appendInt (year t2) 4))
    by same_length.
  rewrite (compare_field "-" (appendInt (month t1) 2) (appendInt (month t2) 2))
    by same_length.
  rewrite (compare_field "T" (appendInt (day t1) 2) (appendInt (day t2) 2))
    by same_length.
  rewrite (compare_field ":" (appendInt (hour t1) 2) (appendInt (hour t2) 2))
    by same_length.
  rewrite (compare_field ":" (appendInt (minute t1) 2) (appendInt (minute t2) 2))
    by same_length.
  rewrite (compare_field "." (appendInt (second t1) 2) (appendInt (second t2) 2))
    by same_length.
  rewrite (compare_field "Z" (appendInt (nanosecond t1 / 1000000) 3)
             (appendInt (nanosecond t2 / 1000000) 3)) by same_length.
  rewrite (compare_digits 4 _ _ Y1 Y2), (compare_digits 2 _ _ Mo1 Mo2),
    (compare_digits 2 _ _ D1 D2), (compare_digits 2 _ _ H1 H2),
    (compare_digits 2 _ _ Mi1 Mi2), (compare_digits 2 _ _ S1 S2),
    (compare_digits 3 _ _ N1 N2).
  rewrite Yv1, Yv2, Mov1, Mov2, Dv1, Dv2, Hv1, Hv2, Miv1, Miv2, Sv1, Sv2, Nv1, Nv2.
  reflexivity.
Qed.

Lemma timestamps_sort_as_readings_witness :
  String.compare "2018-03-09T14:05:07.042Z" "2018-03-10T00:00:00.000Z" = Lt.
Proof.
  pose (t1 := Now Example.env 0).
  pose (t2 := {| year := 2018; month := 3; day := 10; hour := 0; minute := 0;
                 second := 0; nanosecond := 999999 |}).
  assert (V1 : validTime t1) by (unfold validTime; simpl; lia).
  assert (V2 : validTime t2) by (unfold validTime; simpl; lia).
  exact (eq_trans (timestamps_sort_as_readings t1 t2 V1 V2) eq_refl).
Defined.

(** X15: two valid readings of the clock get the same timestamp exactly when
    they agree on year, month, day, hour, minute, second and millisecond: the
    timestamp keeps all of these and drops what is below the millisecond,
    by truncation. *)
Theorem same_timestamp_iff_same_millisecond (t1 t2 : Time) :
  validTime t1 → validTime t2 →
  Format t1 messageTimestampDateFormat = Format t2 messageTimestampDateFormat
  ↔ printedFields t1 = printedFields t2.
Proof.
  intros V1 V2.
  destruct (printed_fields_digits t1 V1)
    as (Y1 & Mo1 & D1 & H1 & Mi1 & S1 & N1 & Yv1 & Mov1 & Dv1 & Hv1 & Miv1 & Sv1 & Nv1).
  destruct (printed_fields_digits t2 V2)
    as (Y2 & Mo2 & D2 & H2 & Mi2 & S2 & N2 & Yv2 & Mov2 & Dv2 & Hv2 & Miv2 & Sv2 & Nv2).
  rewrite !Format_fields. unfold printedFields. split.
  - intros Heq.
    apply field_inj in Heq as [Ey Heq]; [|same_length].
    apply field_inj in Heq as [Emo Heq]; [|same_length].
    apply field_inj in Heq as [Ed Heq]; [|same_length].
    apply field_inj in Heq as [Eh Heq]; [|same_length].
    apply field_inj in Heq as [Emi Heq]; [|same_length].
    apply field_inj in Heq as [Es Heq]; [|same_length].
    apply field_inj in Heq as [En _]; [|same_length].
    apply (f_equal digitsValue) in Ey, Emo, Ed, Eh, Emi, Es, En.
    congruence.
  - intros [= -> -> -> -> -> -> ->]. reflexivity.
Qed.

Lemma same_timestamp_iff_same_millisecond_witness :
  let reading (ns : Z) :=
    {| year := 2018; month := 3; day := 9; hour := 14; minute := 5; second := 7;
       nanosecond := ns |} in
  Format (reading 42000000%Z) messageTimestampDateFormat
  = Format (reading 42999999%Z) messageTimestampDateFormat
  ∧ Format (reading 42999999%Z) messageTimestampDateFormat
    ≠ Format (reading 43000000%Z) messageTimestampDateFormat.
Proof.
  intros reading.
  assert (V1 : validTime (reading 42000000%Z)) by (unfold validTime; simpl; lia).
  assert (V2 : validTime (reading 42999999%Z)) by (unfold validTime; simpl; lia).
  assert (V3 : validTime (reading 43000000%Z)) by (unfold validTime; simpl; lia).
  split.
  - apply (same_timestamp_iff_same_millisecond _ _ V1 V2). vm_compute. reflexivity.
  - intros Heq. apply (same_timestamp_iff_same_millisecond _ _ V2 V3) in Heq.
    vm_compute in Heq. discriminate Heq.
Defined.
